(** * compare-pdf.py: page-wise visual comparison of two PDF files

    A shallow embedding of [compare_pdf_pages] and of the command-line entry
    point of [compare-pdf.py].  The script is glue code over three external
    libraries (pdf2image, Pillow, pixelmatch) and over the file system.  The
    library calls on images are an interface ([Backend]); the file system,
    the standard output and the sequence of external calls are explicit
    state, threaded through a state-and-exception monad. *)

From Stdlib Require Import Ascii QArith.
From stdpp Require Import gmap strings list fin_maps pretty.

(** ** Exceptions and results *)

(** The Python exceptions the modelled calls can raise.  [SystemExit] is what
    [sys.exit] raises; [LibraryError] stands for any exception of the
    external libraries (decode errors, unsupported modes, ...);
    [UnicodeEncodeError] and [OSError] are what a write to the standard
    output raises when the stream cannot encode the text or fails. *)
Inductive exn : Type :=
  | FileExistsError
  | FileNotFoundError
  | NotADirectoryError
  | IsADirectoryError
  | AttributeError
  | ValueError
  | LibraryError (name : string)
  | SystemExit (code : Z)
  | UnicodeEncodeError
  | OSError.

Inductive result (A : Type) : Type :=
  | Ok (a : A)
  | Raise (e : exn).
Arguments Ok {A} a.
Arguments Raise {A} e.

Definition is_Ok {A} (r : result A) : bool :=
  match r with Ok _ => true | Raise _ => false end.

(** ** Paths ([pathlib.PurePosixPath])

    A path is the list of its components, the last component first, so that
    the parent of [name :: p] is [p].  The empty list is the current
    directory; an absolute path ends in its root component. *)
Definition path : Type := list string.

Fixpoint split_on (c : ascii) (s : string) : list string :=
  match s with
  | EmptyString => [EmptyString]
  | String a s' =>
      if Ascii.eqb a c then EmptyString :: split_on c s'
      else match split_on c s' with
           | [] => [String a EmptyString]
           | w :: ws => String a w :: ws
           end
  end.

(** Does the character occur in the string? *)
Fixpoint has_char (c : ascii) (s : string) : bool :=
  match s with
  | EmptyString => false
  | String a s' => Ascii.eqb a c || has_char c s'
  end.

Definition slash : ascii := "/"%char.

(** The root of a path string: exactly two leading slashes are kept as
    ["//"], one or three and more collapse to ["/"]. *)
Definition root_of (s : string) : list string :=
  match s with
  | String a (String b (String c _)) =>
      if Ascii.eqb a slash then
        if Ascii.eqb b slash then
          if Ascii.eqb c slash then ["/"] else ["//"]
        else ["/"]
      else []
  | String a (String b EmptyString) =>
      if Ascii.eqb a slash then
        if Ascii.eqb b slash then ["//"] else ["/"]
      else []
  | String a EmptyString => if Ascii.eqb a slash then ["/"] else []
  | EmptyString => []
  end.

Definition is_name (w : string) : bool :=
  negb (String.eqb w "") && negb (String.eqb w ".").

(** [parts s] is [PurePosixPath(s).parts]: empty components and ["."] are
    dropped, [".."] is kept. *)
Definition parts (s : string) : list string :=
  root_of s ++ List.filter is_name (split_on slash s).

Definition Path (s : string) : path := rev (parts s).

(** [p / s]: an absolute [s] replaces [p], a relative one is appended. *)
Definition joinpath (p : path) (s : string) : path :=
  match root_of s with
  | [] => rev (parts s) ++ p
  | _ :: _ => Path s
  end.

(** The anchors always exist and are directories. *)
Definition is_anchor (p : path) : bool :=
  match p with
  | [] => true
  | [r] => String.eqb r "/" || String.eqb r "//"
  | _ => false
  end.

(** ** File system

    The script reaches the file system through [Path.mkdir] and
    [Image.save] only.  Both are library code; their model follows the
    Python library: [pathlib.Path.mkdir] as it is written over [os.mkdir],
    and the [open(p, "w+b")] of [Image.save].

    The model is a file system without links, seen through the paths as
    they are written: a path is the list of its components, different
    lists are different nodes, and [".."] is a name like any other (the
    operating system would resolve it).  Hard links, symbolic links and
    two spellings of one file are therefore outside the model.  The errors
    modelled are those of a node that exists, is missing or is not a
    directory; permissions, name length limits and invalid bytes are not.
    What is stated below of the contents of the file system is stated of
    such a file system; what is stated of the calls made does not depend
    on it. *)

Section FileSystem.
Context {Image : Type}.

(** A node is a directory or a regular file; a file written by
    [Image.save] holds the saved image. *)
Inductive node : Type :=
  | Dir
  | File (content : Image).

Local Abbreviation FS := (gmap path node).

Definition node_at (fs : FS) (p : path) : option node :=
  if is_anchor p then Some Dir else fs !! p.

Definition is_dir (fs : FS) (p : path) : bool :=
  match node_at fs p with Some Dir => true | _ => false end.

(** [os.mkdir(p)]. *)
Definition os_mkdir (fs : FS) (p : path) : result FS :=
  match node_at fs p with
  | Some _ => Raise FileExistsError
  | None =>
      match node_at fs (tail p) with
      | Some Dir => Ok (<[p := Dir]> fs)
      | Some (File _) => Raise NotADirectoryError
      | None => Raise FileNotFoundError
      end
  end.

(** [Path.mkdir(self, parents=False, exist_ok=True)]: an [OSError] is
    swallowed when the path is a directory. *)
Definition mkdir_exist_ok (fs : FS) (p : path) : result FS :=
  match os_mkdir fs p with
  | Ok fs' => Ok fs'
  | Raise FileNotFoundError => Raise FileNotFoundError
  | Raise e => if is_dir fs p then Ok fs else Raise e
  end.

(** [Path.mkdir(self, parents=True, exist_ok=True)]: on
    [FileNotFoundError] the parent is created first, then the path. *)
Fixpoint Path_mkdir (fs : FS) (p : path) : result FS :=
  match os_mkdir fs p with
  | Ok fs' => Ok fs'
  | Raise FileNotFoundError =>
      match p with
      | [] => Raise FileNotFoundError
      | _ :: parent =>
          match Path_mkdir fs parent with
          | Ok fs1 => mkdir_exist_ok fs1 p
          | Raise e => Raise e
          end
      end
  | Raise e => if is_dir fs p then Ok fs else Raise e
  end.

(** [open(p, "w+b")] followed by the write of the encoded image. *)
Definition write_file (fs : FS) (p : path) (img : Image) : result FS :=
  match node_at fs p with
  | Some Dir => Raise IsADirectoryError
  | _ =>
      match node_at fs (tail p) with
      | Some Dir => Ok (<[p := File img]> fs)
      | Some (File _) => Raise NotADirectoryError
      | None => Raise FileNotFoundError
      end
  end.
End FileSystem.
Arguments node : clear implicits.

(** A file system maps the paths that exist to their nodes. *)
Abbreviation FS Image := (gmap path (node Image)).

(** ** The external libraries

    pdf2image, Pillow and pixelmatch are not part of the script; their calls
    are the methods of an interface.  Every call can raise.  The PDF files
    read by [convert_from_path] are an environment of their own, which the
    script never writes. *)

Inductive Resampling : Type :=
  NEAREST | BOX | BILINEAR | HAMMING | BICUBIC | LANCZOS.

Class Backend (Image : Type) : Type := {
  (** [pdf2image.convert_from_path(file, dpi=, use_pdftocairo=)] *)
  convert_from_path : string → Z → bool → result (list Image);
  (** [img.size], a (width, height) pair *)
  Image_size : Image → Z * Z;
  (** [img.convert(mode)] *)
  Image_convert : Image → string → result Image;
  (** [img.resize(size, resample)] *)
  Image_resize : Image → Z * Z → Resampling → result Image;
  (** [Image.new(mode, size)] *)
  Image_new : string → Z * Z → result Image;
  (** [Image.alpha_composite(im1, im2)] *)
  Image_alpha_composite : Image → Image → result Image;
  (** [pixelmatch(img1, img2, output, threshold=)]: the number of
      mismatched pixels, and the output image as the call leaves it (the
      call draws into [output] in place). *)
  pixelmatch : Image → Image → Image → Q → result (Z * Image);
}.

(** ** The standard output

    [print] writes its line to [sys.stdout], a stream of the environment.
    The write can raise: [UnicodeEncodeError] when the encoding of the
    stream has no code for a character of the line, [OSError] when the
    stream fails.  The interpreter flushes the stream when it shuts down,
    and that flush can fail as well. *)
Class Console : Type := {
  (** the write of one line by [print(line)] *)
  stdout_write : string → result unit;
  (** the flush of [sys.stdout] at interpreter shutdown *)
  stdout_flush : result unit;
}.

(** ** Python built-ins used by the script *)

Fixpoint zip_longest {A B : Type} (l1 : list A) (l2 : list B)
  : list (option A * option B) :=
  match l1 with
  | [] => (λ y, (None, Some y)) <$> l2
  | x :: l1' =>
      match l2 with
      | [] => (Some x, None) :: zip_longest l1' []
      | y :: l2' => (Some x, Some y) :: zip_longest l1' l2'
      end
  end.

Fixpoint enumerate_from {A : Type} (start : nat) (l : list A)
  : list (nat * A) :=
  match l with
  | [] => []
  | x :: l' => (start, x) :: enumerate_from (S start) l'
  end.

Definition enumerate {A : Type} (l : list A) : list (nat * A) :=
  enumerate_from 0 l.

(** [repr] of a pair of ints, as an f-string prints [img.size]. *)
Definition repr_size (s : Z * Z) : string :=
  "(" +:+ pretty (fst s) +:+ ", " +:+ pretty (snd s) +:+ ")".

(** ** An executable backend

    A small implementation of the interface, to run the script on concrete
    documents: an image is a mode, a size and its pixels in row order.  The
    theorems below hold for every backend; this one only evaluates them. *)
Module Ref.
Record Img : Type := mkImg {
  mode : string;
  width : Z;
  height : Z;
  pixels : list Z;
}.

Definition size (im : Img) : Z * Z := (width im, height im).

Definition area (s : Z * Z) : nat := Z.to_nat (fst s * snd s).

Definition convert (im : Img) (m : string) : result Img :=
  Ok {| mode := m; width := width im; height := height im;
        pixels := pixels im |}.

(** Crop or pad with zero to the new area. *)
Definition resize (im : Img) (s : Z * Z) (_ : Resampling) : result Img :=
  if ((fst s <? 0) || (snd s <? 0))%Z then Raise ValueError
  else Ok {| mode := mode im; width := fst s; height := snd s;
             pixels := take (area s) (pixels im ++ replicate (area s) 0%Z) |}.

Definition new (m : string) (s : Z * Z) : result Img :=
  if ((fst s <? 0) || (snd s <? 0))%Z then Raise ValueError
  else Ok {| mode := m; width := fst s; height := snd s;
             pixels := replicate (area s) 0%Z |}.

Definition same_size (a b : Img) : bool :=
  ((width a =? width b) && (height a =? height b))%Z.

Definition alpha_composite (a b : Img) : result Img :=
  if same_size a b then
    Ok {| mode := mode a; width := width a; height := height a;
          pixels := zip_with (λ x y, if (y =? 0)%Z then x else y)
                             (pixels a) (pixels b) |}
  else Raise ValueError.

Definition count_diff (l1 l2 : list Z) : Z :=
  Z.of_nat (length (List.filter (λ xy, negb (fst xy =? snd xy)%Z)
                                (zip l1 l2))).

Definition pixel_match (a b out : Img) (_ : Q) : result (Z * Img) :=
  if same_size a b && same_size a out then
    Ok (count_diff (pixels a) (pixels b),
        {| mode := mode out; width := width out; height := height out;
           pixels := zip_with (λ x y, if (x =? y)%Z then 0 else 255)%Z
                              (pixels a) (pixels b) |})
  else Raise ValueError.

Definition page (w h : Z) (px : list Z) : Img :=
  {| mode := "RGB"; width := w; height := h; pixels := px |}.

Definition pA : Img := page 2 2 [1; 2; 3; 4]%Z.
Definition pB : Img := page 2 2 [5; 6; 7; 8]%Z.
Definition pB' : Img := page 2 2 [5; 6; 0; 8]%Z.
Definition pC : Img := page 2 1 [9; 9]%Z.
Definition pE : Img := page 2 1 [1; 2]%Z.

(** The PDF files of the examples. *)
Definition rasterize (file : string) (_ : Z) (_ : bool)
  : result (list Img) :=
  if String.eqb file "a.pdf" then Ok [pA; pB]
  else if String.eqb file "a2.pdf" then Ok [pA; pB]
  else if String.eqb file "b.pdf" then Ok [pA; pB']
  else if String.eqb file "c.pdf" then Ok [pA; pB; pC]
  else if String.eqb file "d.pdf" then Ok [pA; pC]
  else if String.eqb file "empty.pdf" then Ok []
  else if String.eqb file "e.pdf" then Ok [pA; pE]
  else if String.eqb file "f.pdf" then Ok [pA; pA]
  else Raise (LibraryError "PDFPageCountError").

#[global] Instance backend : Backend Img := {|
  convert_from_path := rasterize;
  Image_size := size;
  Image_convert := convert;
  Image_resize := resize;
  Image_new := new;
  Image_alpha_composite := alpha_composite;
  pixelmatch := pixel_match;
|}.

(** A standard output that takes every line (a UTF-8 terminal). *)
#[global] Instance console : Console := {|
  stdout_write := λ _, Ok tt;
  stdout_flush := Ok tt;
|}.




End Ref.

(** ** The script *)

Section Script.
Context {Image : Type} `{!Backend Image} {Console0 : Console}.

(** *** State: file system, standard output, external calls *)

Inductive call : Type :=
  | Call_convert_from_path (file : string) (dpi : Z) (use_pdftocairo : bool)
  | Call_mkdir (p : path)
  | Call_print (line : string)
  | Call_save (img : Image) (p : path)
  | Call_convert (img : Image) (mode : string)
  | Call_resize (img : Image) (size : Z * Z) (resample : Resampling)
  | Call_new (mode : string) (size : Z * Z)
  | Call_pixelmatch (img1 img2 output : Image) (threshold : Q)
  | Call_alpha_composite (im1 im2 : Image).

(** An external call made by the script, with how it ended. *)
Inductive event : Type :=
  | Returned (c : call)
  | Raised (c : call) (e : exn).

Record World : Type := mkWorld {
  fs : FS Image;
  stdout : list string;
  trace : list event;
}.

(** A fresh process over a file system. *)
Definition boot (fs0 : FS Image) : World :=
  {| fs := fs0; stdout := []; trace := [] |}.

(** *** The monad: state, and exceptions that keep the state reached *)

Definition M (A : Type) : Type := World → result A * World.

Definition ret {A} (a : A) : M A := λ w, (Ok a, w).

Definition raise {A} (e : exn) : M A := λ w, (Raise e, w).

Definition bind {A B} (m : M A) (k : A → M B) : M B :=
  λ w, match m w with
       | (Ok a, w') => k a w'
       | (Raise e, w') => (Raise e, w')
       end.

(** An external call [c] acting on the file system by [op]. *)
Definition syscall {A} (c : call) (op : FS Image → result (A * FS Image))
  : M A :=
  λ w, match op (fs w) with
       | Ok (a, fs') =>
           (Ok a, {| fs := fs'; stdout := stdout w;
                     trace := trace w ++ [Returned c] |})
       | Raise e =>
           (Raise e, {| fs := fs w; stdout := stdout w;
                        trace := trace w ++ [Raised c e] |})
       end.

(** A library call that leaves the file system alone. *)
Definition libcall {A} (c : call) (r : result A) : M A :=
  syscall c (λ fs0, match r with
                    | Ok a => Ok (a, fs0)
                    | Raise e => Raise e
                    end).

(** [print(line)]: the line is on the standard output when the write
    returns; when the write raises, the line does not count as printed
    and the exception is the one of the write. *)
Definition print (line : string) : M unit :=
  λ w, match stdout_write line with
       | Ok _ =>
           (Ok tt, {| fs := fs w; stdout := stdout w ++ [line];
                      trace := trace w ++ [Returned (Call_print line)] |})
       | Raise e =>
           (Raise e, {| fs := fs w; stdout := stdout w;
                        trace := trace w ++ [Raised (Call_print line) e] |})
       end.

(** [for x in xs: s = body(x, s)] *)
Fixpoint for_each {X S : Type} (xs : list X) (body : X → S → M S) (s : S)
  : M S :=
  match xs with
  | [] => ret s
  | x :: xs' => bind (body x s) (for_each xs' body)
  end.
Declare Scope py_scope.
Delimit Scope py_scope with py.
Notation "x <- m ;; k" := (bind m (λ x, k))
  (at level 100, m at next level, right associativity) : py_scope.
Notation "m ;; k" := (bind m (λ _, k))
  (at level 100, right associativity) : py_scope.
Local Open Scope py_scope.

(** *** The external calls, as the script makes them *)

Definition py_convert_from_path (file : string) (dpi : Z)
    (use_pdftocairo : bool) : M (list Image) :=
  libcall (Call_convert_from_path file dpi use_pdftocairo)
          (convert_from_path file dpi use_pdftocairo).

(** [Path(p).mkdir(exist_ok=True, parents=True)] *)
Definition py_mkdir (p : path) : M unit :=
  syscall (Call_mkdir p)
          (λ fs0, match Path_mkdir fs0 p with
                  | Ok fs' => Ok (tt, fs')
                  | Raise e => Raise e
                  end).

(** [img.save(p)] *)
Definition py_save (img : Image) (p : path) : M unit :=
  syscall (Call_save img p)
          (λ fs0, match write_file fs0 p img with
                  | Ok fs' => Ok (tt, fs')
                  | Raise e => Raise e
                  end).

Definition py_convert (img : Image) (mode : string) : M Image :=
  libcall (Call_convert img mode) (Image_convert img mode).

Definition py_resize (img : Image) (size : Z * Z) (resample : Resampling)
  : M Image :=
  libcall (Call_resize img size resample) (Image_resize img size resample).

Definition py_new (mode : string) (size : Z * Z) : M Image :=
  libcall (Call_new mode size) (Image_new mode size).

Definition py_pixelmatch (img1 img2 output : Image) (threshold : Q)
  : M (Z * Image) :=
  libcall (Call_pixelmatch img1 img2 output threshold)
          (pixelmatch img1 img2 output threshold).

Definition py_alpha_composite (im1 im2 : Image) : M Image :=
  libcall (Call_alpha_composite im1 im2) (Image_alpha_composite im1 im2).

(** *** The f-strings *)

Definition diff_page_name (i : nat) : string :=
  "diff_page_" +:+ pretty (i + 1)%nat +:+ ".png".

Definition msg_page_count (n1 n2 : nat) : string :=
  "Warning: Page count mismatch! (" +:+ pretty n1 +:+ " vs "
    +:+ pretty n2 +:+ ")".

Definition msg_missing (i : nat) : string :=
  "Page " +:+ pretty (i + 1)%nat +:+ ": Missing in one of the PDFs.".

Definition msg_size (i : nat) (s1 s2 : Z * Z) : string :=
  "Page " +:+ pretty (i + 1)%nat +:+ ": Size mismatch " +:+ repr_size s1
    +:+ " vs " +:+ repr_size s2 +:+ ". Resizing img2.".

Definition msg_found (i : nat) (mismatch : Z) : string :=
  "Page " +:+ pretty (i + 1)%nat +:+ ": Found " +:+ pretty mismatch
    +:+ " pixels of difference.".

(** *** [compare_pdf_pages] *)

(** [img1 or img2]: an image object is always true. *)
Definition py_or (img1 img2 : option Image) : option Image :=
  match img1 with
  | Some img => Some img
  | None => img2
  end.

(** [existing.save(p)]: on [None] the attribute lookup raises. *)
Definition save_existing (existing : option Image) (p : path) : M unit :=
  match existing with
  | Some img => py_save img p
  | None => raise AttributeError
  end.

Definition size_eqb (s1 s2 : Z * Z) : bool :=
  (fst s1 =? fst s2)%Z && (snd s1 =? snd s2)%Z.

(** The body of the [for] loop, lines 42-65: the new value of
    [diff_detected]. *)
Definition loop_body (output_dir : string)
    (it : nat * (option Image * option Image)) (diff_detected : bool)
  : M bool :=
  let '(i, (img1, img2)) := it in
  match img1, img2 with
  | Some img1, Some img2 =>
      img1 <- py_convert img1 "RGBA" ;;
      img2 <- py_convert img2 "RGBA" ;;
      img2 <- (if negb (size_eqb (Image_size img1) (Image_size img2)) then
                 print (msg_size i (Image_size img1) (Image_size img2)) ;;
                 py_resize img2 (Image_size img1) LANCZOS
               else ret img2) ;;
      diff_img <- py_new "RGBA" (Image_size img1) ;;
      r <- py_pixelmatch img1 img2 diff_img (1 # 10) ;;
      let '(mismatch, diff_img) := r in
      if (0 <? mismatch)%Z then
        highlighted <- py_alpha_composite img1 diff_img ;;
        py_save highlighted (joinpath (Path output_dir) (diff_page_name i)) ;;
        print (msg_found i mismatch) ;;
        ret true
      else ret diff_detected
  | _, _ =>
      let existing := py_or img1 img2 in
      save_existing existing
        (joinpath (Path output_dir) (diff_page_name i)) ;;
      print (msg_missing i) ;;
      ret diff_detected
  end.

Definition compare_pdf_pages (file1 file2 output_dir : string) : M bool :=
  images1 <- py_convert_from_path file1 100 true ;;
  images2 <- py_convert_from_path file2 100 true ;;
  py_mkdir (Path output_dir) ;;
  let diff_detected := false in
  diff_detected <-
    (if negb (length images1 =? length images2)%nat then
       print (msg_page_count (length images1) (length images2)) ;;
       ret true
     else ret diff_detected) ;;
  for_each (enumerate (zip_longest images1 images2))
           (loop_body output_dir) diff_detected.

(** *** The command line: the [__main__] block, after argument parsing *)






(** ** What a run leaves behind

  The file system and the standard output are functions of the sequence
  of external calls: [replay] gives the file system after a sequence of
  events, so that the file system "when a call is made" is the replay of
  the events before it. *)

Definition is_returned (ev : event) : bool :=
  match ev with Returned _ => true | Raised _ _ => false end.

(** No call of the sequence raised. *)
Definition clean (evs : list event) : bool := forallb is_returned evs.

Definition is_save (ev : event) : bool :=
  match ev with
  | Returned (Call_save _ _) | Raised (Call_save _ _) _ => true
  | _ => false
  end.

Definition is_resize (ev : event) : bool :=
  match ev with
  | Returned (Call_resize _ _ _) | Raised (Call_resize _ _ _) _ => true
  | _ => false
  end.

Definition is_pixelmatch (ev : event) : bool :=
  match ev with
  | Returned (Call_pixelmatch _ _ _ _) | Raised (Call_pixelmatch _ _ _ _) _ =>
      true
  | _ => false
  end.

Definition replay_event (fs0 : FS Image) (ev : event) : FS Image :=
  match ev with
  | Returned (Call_mkdir p) =>
      match Path_mkdir fs0 p with Ok fs' => fs' | Raise _ => fs0 end
  | Returned (Call_save img p) =>
      match write_file fs0 p img with Ok fs' => fs' | Raise _ => fs0 end
  | _ => fs0
  end.

Definition replay (evs : list event) (fs0 : FS Image) : FS Image :=
  foldl replay_event fs0 evs.

Definition printed_line (ev : event) : option string :=
  match ev with
  | Returned (Call_print line) => Some line
  | _ => None
  end.

Definition printed (evs : list event) : list string :=
  omap printed_line evs.

Definition extend (w : World) (evs : list event) : World :=
  {| fs := replay evs (fs w);
     stdout := stdout w ++ printed evs;
     trace := trace w ++ evs |}.

(** What a successful [mkdir] changes: it only adds directories, all of
    them the path or one of its ancestors. *)
Definition mkdir_post (fs0 : FS Image) (p : path) (fs1 : FS Image)
  : Prop :=
  is_dir fs1 p = true
  ∧ (∀ q : path, is_dir fs0 q = true → is_dir fs1 q = true)
  ∧ (∀ q : path, fs1 !! q = fs0 !! q
                 ∨ (fs0 !! q = None ∧ fs1 !! q = Some Dir
                    ∧ q `suffix_of` p)).

(** Every node sits in a directory. *)
Definition fs_wf (fs0 : FS Image) : Prop :=
  ∀ p n, fs0 !! p = Some n → is_dir fs0 (tail p) = true.

(** *** The data flow of one loop iteration, without its effects *)

Definition rbind {A B} (r : result A) (k : A → result B) : result B :=
  match r with
  | Ok a => k a
  | Raise e => Raise e
  end.

(** Lines 54-56: the second image as it is compared. *)
Definition fit_second (img1 img2 : Image) : result Image :=
  if size_eqb (Image_size img1) (Image_size img2) then Ok img2
  else Image_resize img2 (Image_size img1) LANCZOS.

(** Lines 50-59: the mismatch count, the first image as it is compared
    and the overlay drawn by [pixelmatch]. *)
Definition pixel_diff (img1 img2 : Image) : result (Z * Image * Image) :=
  rbind (Image_convert img1 "RGBA") (λ c1,
  rbind (Image_convert img2 "RGBA") (λ c2,
  rbind (fit_second c1 c2) (λ c2',
  rbind (Image_new "RGBA" (Image_size c1)) (λ blank,
  rbind (pixelmatch c1 c2' blank (1 # 10)) (λ r,
  Ok (r.1, c1, r.2)))))).

(** The image an iteration saves, if any. *)
Definition page_artifact (pair : option Image * option Image)
  : result (option Image) :=
  match pair with
  | (Some img1, Some img2) =>
      rbind (pixel_diff img1 img2) (λ r,
        let '(mismatch, c1, overlay) := r in
        if (0 <? mismatch)%Z then
          rbind (Image_alpha_composite c1 overlay) (λ h, Ok (Some h))
        else Ok None)
  | (Some img, None) | (None, Some img) => Ok (Some img)
  | (None, None) => Raise AttributeError
  end.

(** Does the pixel diff of a pair find mismatched pixels (line 61)? *)
Definition page_differs (pair : option Image * option Image) : bool :=
  match pair with
  | (Some img1, Some img2) =>
      match pixel_diff img1 img2 with
      | Ok (mismatch, _, _) => (0 <? mismatch)%Z
      | Raise _ => false
      end
  | _ => false
  end.

(** The path of the diff image of page [i]. *)
Definition diff_path (output_dir : string) (i : nat) : path :=
  diff_page_name i :: Path output_dir.

(** The events of lines 54-56 on a successful run. *)
Definition fit_events (i : nat) (img1 img2 : Image) : list event :=
  if size_eqb (Image_size img1) (Image_size img2) then []
  else [Returned (Call_print (msg_size i (Image_size img1)
                                       (Image_size img2)));
        Returned (Call_resize img2 (Image_size img1) LANCZOS)].

(** The events of lines 50-59 on a successful run. *)
Definition diff_events (i : nat) (img1 img2 c1 c2 c2' blank : Image)
  : list event :=
  [Returned (Call_convert img1 "RGBA"); Returned (Call_convert img2 "RGBA")]
  ++ fit_events i c1 c2
  ++ [Returned (Call_new "RGBA" (Image_size c1));
      Returned (Call_pixelmatch c1 c2' blank (1 # 10))].

(** The events of lines 31-38 on a successful run. *)
Definition prologue_events (file1 file2 output_dir : string)
    (images1 images2 : list Image) : list event :=
  [Returned (Call_convert_from_path file1 100 true);
   Returned (Call_convert_from_path file2 100 true);
   Returned (Call_mkdir (Path output_dir))]
  ++ (if negb (length images1 =? length images2)%nat
      then [Returned (Call_print (msg_page_count (length images1)
                                                 (length images2)))]
      else []).

(** The write of the page count warning, when there is one (lines
    36-37). *)
Definition warning_write (images1 images2 : list Image) : result unit :=
  if negb (length images1 =? length images2)%nat
  then stdout_write (msg_page_count (length images1) (length images2))
  else Ok tt.

(** *** What one iteration does to the file system

    An iteration either makes calls that leave the file system alone, or
    makes such calls and then saves one image, prints one line and hands
    over a flag. *)
Definition is_write (ev : event) : bool :=
  match ev with
  | Returned (Call_mkdir _) | Returned (Call_save _ _) => true
  | _ => false
  end.

Definition no_write (evs : list event) : bool :=
  forallb (λ ev, negb (is_write ev)) evs.

Inductive plan : Type :=
  | PlanPure (r : result bool) (evs : list event)
  | PlanSave (evs : list event) (img : Image) (line : string) (d : bool).

Definition plan_events (pl : plan) : list event :=
  match pl with
  | PlanPure _ evs => evs
  | PlanSave evs _ _ _ => evs
  end.

Definition prepend (evs0 : list event) (pl : plan) : plan :=
  match pl with
  | PlanPure r evs => PlanPure r (evs0 ++ evs)
  | PlanSave evs img line d => PlanSave (evs0 ++ evs) img line d
  end.

Definition run_plan (p : path) (pl : plan) (w : World)
  : result bool * World :=
  match pl with
  | PlanPure r evs => (r, extend w evs)
  | PlanSave evs img line d =>
      match write_file (fs w) p img with
      | Ok _ =>
          match stdout_write line with
          | Ok _ =>
              (Ok d, extend w (evs ++ [Returned (Call_save img p);
                                       Returned (Call_print line)]))
          | Raise e =>
              (Raise e, extend w (evs ++ [Returned (Call_save img p);
                                          Raised (Call_print line) e]))
          end
      | Raise e => (Raise e, extend w (evs ++ [Raised (Call_save img p) e]))
      end
  end.

Definition has_plan (p : path) (m : M bool) : Prop :=
  ∃ pl, no_write (plan_events pl) = true ∧ ∀ w, m w = run_plan p pl w.


(** A library call that is neither [mkdir] nor [save]. *)
Definition is_pure_call (c : call) : bool :=
  match c with
  | Call_mkdir _ | Call_save _ _ | Call_print _ => false
  | _ => true
  end.

(** The images saved by a sequence of events, with their paths. *)
Definition saved (ev : event) : option (path * Image) :=
  match ev with
  | Returned (Call_save img p) => Some (p, img)
  | _ => None
  end.

Definition saves (evs : list event) : list (path * Image) := omap saved evs.

(** The file an iteration writes, if any. *)
Definition artifact_of (output_dir : string)
    (it : nat * (option Image * option Image)) : option (path * Image) :=
  match page_artifact it.2 with
  | Ok (Some img) => Some (diff_path output_dir it.1, img)
  | _ => None
  end.

(** The run after the first [k] iterations of the loop: the world that
    lines 31-38 leave on a successful run, then [k] iterations. *)
Definition after_pages (file1 file2 output_dir : string) (fs0 : FS Image)
    (images1 images2 : list Image) (k : nat) : result bool * World :=
  for_each (take k (enumerate (zip_longest images1 images2)))
           (loop_body output_dir)
           (negb (length images1 =? length images2)%nat)
           (extend (boot fs0)
                   (prologue_events file1 file2 output_dir images1 images2)).

(** *** Runs

    [ends r evs]: the events [evs] end the way the result [r] says: no
    call raised when a value is returned; the last call, and only it,
    raised the exception that comes out. *)
Definition ends {A} (r : result A) (evs : list event) : Prop :=
  match r with
  | Ok _ => clean evs = true
  | Raise e => ∃ evs' c, evs = evs' ++ [Raised c e] ∧ clean evs' = true
  end.

(** A computation is [traced] when the world it leaves is the world it
    found, extended by the external calls it made. *)
Definition traced {A} (m : M A) : Prop :=
  ∀ w, ∃ evs, m w = ((m w).1, extend w evs) ∧ ends (m w).1 evs.

(** *** The calls a run can make

    [page_call output_dir i c]: [c] is a call as iteration [i] of the loop
    writes it (lines 42-65); [run_call file1 file2 output_dir c]: [c] is a
    call as [compare_pdf_pages] writes it. *)
Definition call_of (ev : event) : call :=
  match ev with Returned c | Raised c _ => c end.

Definition page_line (i : nat) (line : string) : Prop :=
  line = "Page " +:+ pretty (i + 1)%nat +:+ ": Missing in one of the PDFs."
  ∨ (∃ s1 s2 : Z * Z,
       line = "Page " +:+ pretty (i + 1)%nat +:+ ": Size mismatch "
                +:+ repr_size s1 +:+ " vs " +:+ repr_size s2
                +:+ ". Resizing img2.")
  ∨ (∃ n : Z,
       line = "Page " +:+ pretty (i + 1)%nat +:+ ": Found " +:+ pretty n
                +:+ " pixels of difference.").

Definition page_call (output_dir : string) (i : nat) (c : call) : Prop :=
  match c with
  | Call_print line => page_line i line
  | Call_save _ p =>
      p = joinpath (Path output_dir)
                   ("diff_page_" +:+ pretty (i + 1)%nat +:+ ".png")
  | Call_convert _ mode => mode = "RGBA"
  | Call_resize _ _ resample => resample = LANCZOS
  | Call_new mode _ => mode = "RGBA"
  | Call_pixelmatch _ _ _ threshold => threshold = (1 # 10)%Q
  | Call_alpha_composite _ _ => True
  | Call_convert_from_path _ _ _ | Call_mkdir _ => False
  end.

Definition run_call (file1 file2 output_dir : string) (c : call) : Prop :=
  match c with
  | Call_convert_from_path file dpi use_pdftocairo =>
      (file = file1 ∨ file = file2) ∧ dpi = 100%Z ∧ use_pdftocairo = true
  | Call_mkdir p => p = Path output_dir
  | Call_print line =>
      (∃ n1 n2 : nat,
         line = "Warning: Page count mismatch! (" +:+ pretty n1 +:+ " vs "
                  +:+ pretty n2 +:+ ")")
      ∨ (∃ i, page_line i line)
  | _ => ∃ i, page_call output_dir i c
  end.

(** Does the event belong to a call that touches the file system? *)
Definition touches_fs (ev : event) : bool :=
  match call_of ev with
  | Call_mkdir _ | Call_save _ _ => true
  | _ => false
  end.

(** Rasterization and directory creation, the calls of lines 31-33. *)
Definition is_prologue_call (c : call) : bool :=
  match c with
  | Call_convert_from_path _ _ _ | Call_mkdir _ => true
  | _ => false
  end.

(** Every call a computation makes satisfies [P]. *)
Definition emits {A} (P : call → Prop) (m : M A) : Prop :=
  ∀ w r w', m w = (r, w') →
    ∃ evs, w' = extend w evs ∧ Forall (λ ev, P (call_of ev)) evs.

(** One side of the pair is [None] (line 42). *)
Definition lacks_counterpart (pair : option Image * option Image) : bool :=
  match pair with
  | (Some _, Some _) => false
  | _ => true
  end.

(** The size mismatch notice of a page, printed when the two converted
    images of the page differ in size (lines 50-55). *)
Definition size_notice (it : nat * (option Image * option Image))
  : option string :=
  match it with
  | (i, (Some img1, Some img2)) =>
      match Image_convert img1 "RGBA", Image_convert img2 "RGBA" with
      | Ok c1, Ok c2 =>
          if size_eqb (Image_size c1) (Image_size c2) then None
          else Some ("Page " +:+ pretty (i + 1)%nat +:+ ": Size mismatch "
                       +:+ repr_size (Image_size c1) +:+ " vs "
                       +:+ repr_size (Image_size c2) +:+ ". Resizing img2.")
      | _, _ => None
      end
  | _ => None
  end.

(** The number of calls of a kind among the events. *)
Definition count_calls (f : event → bool) (evs : list event) : nat :=
  length (List.filter f evs).

(** The path string has no [".."] component. *)
Definition no_dotdot (s : string) : bool :=
  forallb (λ c, negb (String.eqb c "..")) (parts s).

(** A regular file sits at the path or at one of its ancestors. *)
Definition blocked (fs0 : FS Image) (p : path) : Prop :=
  ∃ (q : path) img, q `suffix_of` p ∧ node_at fs0 q = Some (File img).

(** ** Lemmas on the file system *)

Implicit Types (fs : FS Image) (p q : path) (img : Image).

Lemma node_at_None fs0 p :
  node_at fs0 p = None → is_anchor p = false ∧ fs0 !! p = None.
Proof. unfold node_at. by destruct (is_anchor p). Qed.

Lemma node_at_insert_eq fs0 p (n : node Image) :
  is_anchor p = false → node_at (<[p := n]> fs0) p = Some n.
Proof. unfold node_at. intros ->. by rewrite lookup_insert_eq. Qed.

Lemma is_dir_lookup fs0 p :
  is_anchor p = false → is_dir fs0 p = true → fs0 !! p = Some Dir.
Proof.
  unfold is_dir, node_at. intros ->.
  by destruct (fs0 !! p) as [[|?]|].
Qed.

Lemma is_dir_insert_Dir fs0 p q :
  is_dir fs0 q = true → is_dir (<[p := Dir]> fs0) q = true.
Proof.
  unfold is_dir, node_at. destruct (is_anchor q); [done|].
  destruct (decide (p = q)) as [->|?].
  - by rewrite lookup_insert_eq.
  - by rewrite lookup_insert_ne.
Qed.

Lemma os_mkdir_Ok fs0 fs1 p :
  os_mkdir fs0 p = Ok fs1 →
  fs1 = <[p := Dir]> fs0 ∧ is_anchor p = false ∧ fs0 !! p = None
  ∧ is_dir fs0 (tail p) = true.
Proof.
  unfold os_mkdir, is_dir.
  destruct (node_at fs0 p) eqn:Hp; [done|].
  apply node_at_None in Hp as [? ?].
  destruct (node_at fs0 (tail p)) as [[|?]|]; [|done..].
  by intros [= <-].
Qed.

Lemma mkdir_exist_ok_Ok fs0 fs1 p :
  mkdir_exist_ok fs0 p = Ok fs1 →
  (fs1 = <[p := Dir]> fs0 ∧ is_anchor p = false ∧ fs0 !! p = None
   ∧ is_dir fs0 (tail p) = true)
  ∨ (fs1 = fs0 ∧ is_dir fs0 p = true).
Proof.
  unfold mkdir_exist_ok. destruct (os_mkdir fs0 p) as [fs'|e] eqn:Hos.
  - intros [= <-]. left. by apply os_mkdir_Ok.
  - destruct (is_dir fs0 p) eqn:Hd.
    + destruct e; try done; intros [= <-]; by right.
    + by destruct e.
Qed.

Lemma is_dir_insert_eq fs0 p :
  is_anchor p = false → is_dir (<[p := Dir]> fs0) p = true.
Proof. intros ?. unfold is_dir. by rewrite node_at_insert_eq. Qed.

Lemma mkdir_post_insert fs0 p :
  is_anchor p = false → fs0 !! p = None → mkdir_post fs0 p (<[p := Dir]> fs0).
Proof.
  intros Ha Hp. split_and!.
  - by apply is_dir_insert_eq.
  - intros q. apply is_dir_insert_Dir.
  - intros q. destruct (decide (p = q)) as [<-|?].
    + right. by rewrite lookup_insert_eq.
    + left. by rewrite lookup_insert_ne.
Qed.

Lemma mkdir_post_refl fs0 p : is_dir fs0 p = true → mkdir_post fs0 p fs0.
Proof. intros ?. split_and!; auto. Qed.

Lemma Path_mkdir_post fs0 fs1 p :
  Path_mkdir fs0 p = Ok fs1 → mkdir_post fs0 p fs1.
Proof.
  revert fs1. induction p as [|x parent IH]; intros fs1; cbn [Path_mkdir].
  - destruct (os_mkdir fs0 []) as [fs'|e] eqn:Hos.
    + apply os_mkdir_Ok in Hos as (_ & ? & _); done.
    + destruct (is_dir fs0 []) eqn:Hd; [|by destruct e].
      destruct e; try done; intros [= <-]; by apply mkdir_post_refl.
  - destruct (os_mkdir fs0 (x :: parent)) as [fs'|e] eqn:Hos.
    + apply os_mkdir_Ok in Hos as (-> & ? & ? & _).
      intros [= <-]. by apply mkdir_post_insert.
    + assert (Hother : (if is_dir fs0 (x :: parent) then Ok fs0 else Raise e)
                       = Ok fs1 → mkdir_post fs0 (x :: parent) fs1).
      { destruct (is_dir fs0 (x :: parent)) eqn:Hd; [|done].
        intros [= <-]. by apply mkdir_post_refl. }
      destruct e; try exact Hother.
      destruct (Path_mkdir fs0 parent) as [fs2|e] eqn:Hrec; [|done].
      specialize (IH _ eq_refl) as (Hd2 & Hmono & Hframe).
      intros Hex. apply mkdir_exist_ok_Ok in Hex as [(-> & Ha & Hnone & _)|[-> Hd]].
      * split_and!.
        -- by apply is_dir_insert_eq.
        -- intros q Hq. apply is_dir_insert_Dir. auto.
        -- intros q. destruct (decide (x :: parent = q)) as [<-|Hne].
           ++ rewrite lookup_insert_eq.
              destruct (Hframe (x :: parent)) as [Heq|(? & ? & ?)].
              ** right. split_and!; [congruence|done|done].
              ** right. done.
           ++ rewrite lookup_insert_ne by done.
              destruct (Hframe q) as [?|(? & ? & ?)]; [by left|].
              right. split_and!; [done..|]. by apply suffix_cons_r.
      * split_and!; [done|done|].
        intros q. destruct (Hframe q) as [?|(? & ? & ?)]; [by left|].
        right. split_and!; [done..|]. by apply suffix_cons_r.
Qed.


Lemma write_file_Ok fs0 fs1 p img :
  write_file fs0 p img = Ok fs1 →
  fs1 = <[p := File img]> fs0 ∧ is_dir fs0 p = false
  ∧ is_dir fs0 (tail p) = true.
Proof.
  unfold write_file, is_dir.
  destruct (node_at fs0 p) as [[|?]|]; [done|..];
    destruct (node_at fs0 (tail p)) as [[|?]|]; try done;
    by intros [= <-].
Qed.


Lemma is_dir_insert_File fs0 p q img :
  is_dir fs0 p = false →
  is_dir (<[p := File img]> fs0) q = is_dir fs0 q.
Proof.
  unfold is_dir, node_at. intros Hp.
  destruct (decide (p = q)) as [<-|?].
  - destruct (is_anchor p); [done|]. rewrite lookup_insert_eq.
    by destruct (fs0 !! p) as [[|?]|].
  - by rewrite lookup_insert_ne.
Qed.

Lemma write_file_is_dir fs0 fs1 p q img :
  write_file fs0 p img = Ok fs1 → is_dir fs1 q = is_dir fs0 q.
Proof.
  intros (-> & ? & _)%write_file_Ok. by apply is_dir_insert_File.
Qed.

Lemma fs_wf_insert_Dir fs0 p :
  fs_wf fs0 → is_dir fs0 (tail p) = true → fs_wf (<[p := Dir]> fs0).
Proof.
  intros Hwf Hpar q n. destruct (decide (p = q)) as [<-|?].
  - intros _. by apply is_dir_insert_Dir.
  - rewrite lookup_insert_ne by done. intros Hq.
    apply is_dir_insert_Dir. eauto.
Qed.

Lemma fs_wf_insert_File fs0 p img :
  fs_wf fs0 → is_dir fs0 p = false → is_dir fs0 (tail p) = true →
  fs_wf (<[p := File img]> fs0).
Proof.
  intros Hwf Hp Hpar q n. rewrite is_dir_insert_File by done.
  destruct (decide (p = q)) as [<-|?]; [done|].
  rewrite lookup_insert_ne by done. eauto.
Qed.

Lemma write_file_wf fs0 fs1 p img :
  fs_wf fs0 → write_file fs0 p img = Ok fs1 → fs_wf fs1.
Proof.
  intros Hwf (-> & ? & ?)%write_file_Ok. by apply fs_wf_insert_File.
Qed.

Lemma fs_wf_empty : fs_wf (∅ : FS Image).
Proof. intros p n. by rewrite lookup_empty. Qed.

Lemma Path_mkdir_wf fs0 fs1 p :
  fs_wf fs0 → Path_mkdir fs0 p = Ok fs1 → fs_wf fs1.
Proof.
  intros Hwf. revert fs1.
  induction p as [|x parent IH]; intros fs1; cbn [Path_mkdir].
  - destruct (os_mkdir fs0 []) as [fs'|e] eqn:Hos.
    + apply os_mkdir_Ok in Hos as (_ & ? & _); done.
    + destruct (is_dir fs0 []); [|destruct e; discriminate].
      destruct e; try discriminate; intros [= <-]; exact Hwf.
  - destruct (os_mkdir fs0 (x :: parent)) as [fs'|e] eqn:Hos.
    + apply os_mkdir_Ok in Hos as (-> & ? & ? & ?).
      intros [= <-]. by apply fs_wf_insert_Dir.
    + assert (Hother : (if is_dir fs0 (x :: parent) then Ok fs0 else Raise e)
                       = Ok fs1 → fs_wf fs1).
      { destruct (is_dir fs0 (x :: parent)); [|discriminate].
        intros [= <-]; exact Hwf. }
      destruct e; try exact Hother.
      destruct (Path_mkdir fs0 parent) as [fs2|e] eqn:Hrec; [|discriminate].
      specialize (IH _ eq_refl).
      intros [(-> & _ & _ & ?)|[-> _]]%mkdir_exist_ok_Ok; [|exact IH].
      by apply fs_wf_insert_Dir.
Qed.

(** In a well-formed file system the ancestors of a directory are
    directories. *)
Lemma fs_wf_ancestors fs0 p q :
  fs_wf fs0 → is_dir fs0 p = true → q `suffix_of` p → is_dir fs0 q = true.
Proof.
  intros Hwf. induction p as [|x parent IH]; intros Hd Hq.
  - by apply suffix_nil_inv in Hq as ->.
  - destruct q as [|y q']; [reflexivity|].
    apply suffix_cons_inv in Hq as [->|Hq]; [done|].
    apply IH; [|done].
    destruct (is_anchor (x :: parent)) eqn:Ha.
    + destruct parent; [reflexivity|]. simpl in Ha. discriminate.
    + apply is_dir_lookup in Hd; [|done]. by apply Hwf in Hd.
Qed.

(** ** Lemmas on names and paths *)

Lemma has_char_app c (s1 s2 : string) :
  has_char c (s1 +:+ s2) = has_char c s1 || has_char c s2.
Proof.
  induction s1 as [|a s1 IH]; simpl; [done|].
  rewrite IH. by rewrite orb_assoc.
Qed.

Lemma split_on_absent c (s : string) :
  has_char c s = false → split_on c s = [s].
Proof.
  induction s as [|a s IH]; simpl; [done|].
  intros [Ha Hs]%orb_false_elim. rewrite Ha, IH; done.
Qed.

Lemma pretty_N_char_no_slash (x : N) :
  Ascii.eqb (pretty_N_char x) slash = false.
Proof. unfold pretty_N_char. by repeat case_match. Qed.

Lemma pretty_N_go_no_slash (x : N) (s : string) :
  has_char slash s = false → has_char slash (pretty_N_go x s) = false.
Proof.
  revert s. induction (N.lt_wf_0 x) as [x _ IH]; intros s Hs.
  assert (x = 0 ∨ 0 < x)%N as [->|?] by lia.
  - by rewrite pretty_N_go_0.
  - rewrite pretty_N_go_step by done. apply IH.
    { by apply N.div_lt. }
    simpl. by rewrite pretty_N_char_no_slash, Hs.
Qed.

Lemma pretty_nat_no_slash (n : nat) : has_char slash (pretty n) = false.
Proof.
  unfold pretty, pretty_nat, pretty, pretty_N.
  case_decide; [done|]. by apply pretty_N_go_no_slash.
Qed.

Lemma diff_page_name_no_slash (i : nat) :
  has_char slash (diff_page_name i) = false.
Proof.
  unfold diff_page_name. rewrite !has_char_app.
  by rewrite pretty_nat_no_slash.
Qed.

(** The name of a diff image is one path component. *)
Lemma joinpath_diff_page_name p (i : nat) :
  joinpath p (diff_page_name i) = diff_page_name i :: p.
Proof.
  unfold joinpath, parts.
  rewrite split_on_absent by apply diff_page_name_no_slash.
  reflexivity.
Qed.

Lemma list_ascii_of_string_app (s1 s2 : string) :
  String.list_ascii_of_string (s1 +:+ s2)
  = String.list_ascii_of_string s1 ++ String.list_ascii_of_string s2.
Proof. induction s1 as [|a s1 IH]; simpl; [done|]. by rewrite IH. Qed.

Lemma string_app_inv_tail (s1 s2 t : string) :
  s1 +:+ t = s2 +:+ t → s1 = s2.
Proof.
  intros Heq. apply (f_equal String.list_ascii_of_string) in Heq.
  rewrite !list_ascii_of_string_app in Heq.
  apply app_inv_tail in Heq.
  apply (f_equal String.string_of_list_ascii) in Heq.
  by rewrite !String.string_of_list_ascii_of_string in Heq.
Qed.

Lemma diff_page_name_inj (i j : nat) :
  diff_page_name i = diff_page_name j → i = j.
Proof.
  unfold diff_page_name. intros Heq.
  apply (inj (String.app "diff_page_")) in Heq.
  apply string_app_inv_tail in Heq.
  apply (inj pretty) in Heq. lia.
Qed.

(** ** Lemmas on the monad *)

Lemma bind_Ok {A B} (m : M A) (k : A → M B) w a w1 :
  m w = (Ok a, w1) → bind m k w = k a w1.
Proof. unfold bind. by intros ->. Qed.

Lemma bind_inv {A B} (m : M A) (k : A → M B) w r w' :
  bind m k w = (r, w') →
  (∃ a w1, m w = (Ok a, w1) ∧ k a w1 = (r, w'))
  ∨ (∃ e, m w = (Raise e, w') ∧ r = Raise e).
Proof.
  unfold bind. destruct (m w) as [[a|e] w1].
  - intros ?. left. eauto.
  - intros [= <- <-]. right. eauto.
Qed.

Lemma extend_nil w : extend w [] = w.
Proof. destruct w. unfold extend. simpl. by rewrite !app_nil_r. Qed.

Lemma replay_app evs1 evs2 fs0 :
  replay (evs1 ++ evs2) fs0 = replay evs2 (replay evs1 fs0).
Proof. unfold replay. apply foldl_app. Qed.

Lemma printed_app evs1 evs2 :
  printed (evs1 ++ evs2) = printed evs1 ++ printed evs2.
Proof. unfold printed. apply omap_app. Qed.

Lemma clean_app evs1 evs2 :
  clean (evs1 ++ evs2) = clean evs1 && clean evs2.
Proof. unfold clean. apply forallb_app. Qed.

Lemma extend_app w evs1 evs2 :
  extend (extend w evs1) evs2 = extend w (evs1 ++ evs2).
Proof.
  unfold extend. simpl.
  by rewrite replay_app, printed_app, !app_assoc.
Qed.

Lemma print_extend line w :
  print line w
  = match stdout_write line with
    | Ok _ => (Ok tt, extend w [Returned (Call_print line)])
    | Raise e => (Raise e, extend w [Raised (Call_print line) e])
    end.
Proof.
  unfold print, extend. simpl.
  destruct (stdout_write line); [done|by rewrite app_nil_r].
Qed.

Lemma libcall_extend {A} (c : call) (r : result A) w :
  is_pure_call c = true →
  libcall c r w
  = match r with
    | Ok a => (Ok a, extend w [Returned c])
    | Raise e => (Raise e, extend w [Raised c e])
    end.
Proof.
  intros Hc. unfold libcall, syscall, extend.
  destruct r; simpl; [|by rewrite app_nil_r].
  destruct c; try discriminate Hc; by rewrite app_nil_r.
Qed.

Lemma py_mkdir_extend p w :
  py_mkdir p w
  = match Path_mkdir (fs w) p with
    | Ok _ => (Ok tt, extend w [Returned (Call_mkdir p)])
    | Raise e => (Raise e, extend w [Raised (Call_mkdir p) e])
    end.
Proof.
  unfold py_mkdir, syscall, extend. simpl.
  destruct (Path_mkdir (fs w) p); by rewrite app_nil_r.
Qed.

Lemma py_save_extend img p w :
  py_save img p w
  = match write_file (fs w) p img with
    | Ok _ => (Ok tt, extend w [Returned (Call_save img p)])
    | Raise e => (Raise e, extend w [Raised (Call_save img p) e])
    end.
Proof.
  unfold py_save, syscall, extend. simpl.
  destruct (write_file (fs w) p img); by rewrite app_nil_r.
Qed.

Lemma traced_ret {A} (a : A) : traced (ret a).
Proof. intros w. exists []. by rewrite extend_nil. Qed.

Lemma traced_print line : traced (print line).
Proof.
  intros w. rewrite print_extend. destruct (stdout_write line) as [?|e].
  - by exists [Returned (Call_print line)].
  - exists [Raised (Call_print line) e]. split; [done|]. by eexists [], _.
Qed.

Lemma traced_libcall {A} (c : call) (r : result A) :
  is_pure_call c = true → traced (libcall c r).
Proof.
  intros Hc w. rewrite libcall_extend by done. destruct r as [a|e].
  - by exists [Returned c].
  - exists [Raised c e]. split; [done|]. by exists [], c.
Qed.

Lemma traced_py_mkdir p : traced (py_mkdir p).
Proof.
  intros w. rewrite py_mkdir_extend. destruct (Path_mkdir (fs w) p) as [?|e].
  - by exists [Returned (Call_mkdir p)].
  - exists [Raised (Call_mkdir p) e]. split; [done|]. by eexists [], _.
Qed.

Lemma traced_py_save img p : traced (py_save img p).
Proof.
  intros w. rewrite py_save_extend.
  destruct (write_file (fs w) p img) as [?|e].
  - by exists [Returned (Call_save img p)].
  - exists [Raised (Call_save img p) e]. split; [done|]. by eexists [], _.
Qed.

Lemma traced_bind {A B} (m : M A) (k : A → M B) :
  traced m → (∀ a, traced (k a)) → traced (bind m k).
Proof.
  intros Hm Hk w. destruct (Hm w) as (evs1 & Hrun1 & Hend1).
  unfold bind. destruct (m w) as [[a|e] w1] eqn:Hmw; simpl in *.
  - injection Hrun1 as ->.
    destruct (Hk a (extend w evs1)) as (evs2 & Hrun2 & Hend2).
    exists (evs1 ++ evs2). rewrite Hrun2 at 1. rewrite extend_app.
    split; [done|].
    destruct (k a (extend w evs1)) as [[b|e] w2]; simpl in *.
    + by rewrite clean_app, Hend1, Hend2.
    + destruct Hend2 as (evs' & c & -> & Hc).
      exists (evs1 ++ evs'), c. rewrite app_assoc. split; [done|].
      by rewrite clean_app, Hend1, Hc.
  - injection Hrun1 as ->. exists evs1. by split.
Qed.

Lemma traced_for_each {X S} (xs : list X) (body : X → S → M S) s :
  (∀ x s', x ∈ xs → traced (body x s')) → traced (for_each xs body s).
Proof.
  revert s. induction xs as [|x xs IH]; intros s Hbody; simpl.
  - apply traced_ret.
  - apply traced_bind.
    + apply Hbody. by left.
    + intros s'. apply IH. intros y s'' Hy. apply Hbody. by right.
Qed.

(** ** Lemmas on [zip_longest] and [enumerate] *)

Lemma zip_longest_length {A B} (l1 : list A) (l2 : list B) :
  length (zip_longest l1 l2) = max (length l1) (length l2).
Proof.
  revert l2. induction l1 as [|x l1 IH]; intros l2; simpl.
  - by rewrite length_fmap.
  - destruct l2 as [|y l2]; simpl; rewrite IH; simpl; lia.
Qed.

Lemma zip_longest_lookup {A B} (l1 : list A) (l2 : list B) (i : nat) :
  i < max (length l1) (length l2) →
  zip_longest l1 l2 !! i = Some (l1 !! i, l2 !! i).
Proof.
  revert l2 i. induction l1 as [|x l1 IH]; intros l2 i; simpl.
  - intros Hi. rewrite list_lookup_fmap.
    destruct (lookup_lt_is_Some_2 l2 i Hi) as [y ->]. done.
  - destruct l2 as [|y l2]; destruct i as [|i]; simpl; try done.
    + intros Hi. rewrite IH by (simpl; lia). done.
    + intros Hi. apply IH. lia.
Qed.

Lemma zip_longest_lookup_Some {A B} (l1 : list A) (l2 : list B) i a b :
  zip_longest l1 l2 !! i = Some (a, b) →
  a = l1 !! i ∧ b = l2 !! i ∧ i < max (length l1) (length l2).
Proof.
  intros Hl. assert (i < max (length l1) (length l2)) as Hi.
  { rewrite <-zip_longest_length. by eapply lookup_lt_Some. }
  rewrite zip_longest_lookup in Hl by done. by injection Hl as <- <-.
Qed.

(** [zip_longest] never pairs two fill values. *)
Lemma zip_longest_not_both_None {A B} (l1 : list A) (l2 : list B) i :
  zip_longest l1 l2 !! i ≠ Some (None, None).
Proof.
  intros (Ha & Hb & Hi)%zip_longest_lookup_Some.
  symmetry in Ha, Hb.
  apply lookup_ge_None in Ha, Hb. lia.
Qed.

Lemma enumerate_from_lookup {A} (l : list A) (k i : nat) :
  enumerate_from k l !! i = (λ x, ((k + i)%nat, x)) <$> l !! i.
Proof.
  revert k i. induction l as [|x l IH]; intros k i; simpl; [done|].
  destruct i as [|i]; simpl.
  - by rewrite Nat.add_0_r.
  - rewrite IH. by replace (S k + i)%nat with (k + S i)%nat by lia.
Qed.

Lemma enumerate_lookup {A} (l : list A) (i : nat) :
  enumerate l !! i = (λ x, (i, x)) <$> l !! i.
Proof. unfold enumerate. by rewrite enumerate_from_lookup. Qed.

Lemma enumerate_length {A} (l : list A) : length (enumerate l) = length l.
Proof.
  unfold enumerate. generalize 0%nat.
  induction l as [|x l IH]; intros k; simpl; [done|]. by rewrite IH.
Qed.

(** The pages of the loop: index and pair, none with both sides absent. *)
Lemma pages_elem_of (images1 images2 : list Image) i pair :
  (i, pair) ∈ enumerate (zip_longest images1 images2) →
  pair = (images1 !! i, images2 !! i)
  ∧ i < max (length images1) (length images2).
Proof.
  intros (k & Hk)%list_elem_of_lookup.
  rewrite enumerate_lookup in Hk.
  destruct (zip_longest images1 images2 !! k) as [[a b]|] eqn:Hz; [|done].
  injection Hk as <- <-.
  apply zip_longest_lookup_Some in Hz as (-> & -> & ?). done.
Qed.

(** ** The script is traced *)

Ltac traced_auto :=
  repeat first
    [ apply traced_ret
    | apply traced_print
    | apply traced_py_save
    | apply traced_py_mkdir
    | (apply traced_libcall; reflexivity)
    | (apply traced_bind; [|intros ?])
    | match goal with |- traced (if ?b then _ else _) => destruct b end
    | match goal with |- traced (let '(_, _) := ?r in _) => destruct r end ].

Lemma traced_loop_body output_dir i pair d :
  pair ≠ (None, None) → traced (loop_body output_dir (i, pair) d).
Proof.
  intros Hpair. unfold loop_body.
  destruct pair as [[img1|] [img2|]]; [traced_auto..|done].
Qed.

Lemma traced_pages output_dir (images1 images2 : list Image) d :
  traced (for_each (enumerate (zip_longest images1 images2))
                   (loop_body output_dir) d).
Proof.
  apply traced_for_each. intros [i pair] d' Hin.
  apply traced_loop_body. intros ->.
  apply pages_elem_of in Hin as [[= Ha Hb] Hi].
  symmetry in Ha, Hb. apply lookup_ge_None in Ha, Hb. lia.
Qed.

Lemma traced_compare_pdf_pages file1 file2 output_dir :
  traced (compare_pdf_pages file1 file2 output_dir).
Proof. unfold compare_pdf_pages. traced_auto. apply traced_pages. Qed.

(** ** One iteration of the loop *)

Lemma libcall_Ok_inv {A} (c : call) (rr : result A) w a w1 :
  is_pure_call c = true →
  libcall c rr w = (Ok a, w1) → rr = Ok a ∧ w1 = extend w [Returned c].
Proof.
  intros Hc. rewrite libcall_extend by done.
  destruct rr; intros [= <- <-]; done.
Qed.

Lemma py_save_Ok_inv img p w u w1 :
  py_save img p w = (Ok u, w1) →
  write_file (fs w) p img = Ok (fs w1)
  ∧ w1 = extend w [Returned (Call_save img p)].
Proof.
  rewrite py_save_extend.
  destruct (write_file (fs w) p img) as [fs'|e] eqn:Hw; intros [= <- <-].
  split; [|done]. unfold extend, replay. simpl. by rewrite Hw.
Qed.

Lemma py_mkdir_Ok_inv p w u w1 :
  py_mkdir p w = (Ok u, w1) →
  Path_mkdir (fs w) p = Ok (fs w1)
  ∧ w1 = extend w [Returned (Call_mkdir p)].
Proof.
  rewrite py_mkdir_extend.
  destruct (Path_mkdir (fs w) p) as [fs'|e] eqn:Hw; intros [= <- <-].
  split; [|done]. unfold extend, replay. simpl. by rewrite Hw.
Qed.

Lemma print_Ok_inv line w u w1 :
  print line w = (Ok u, w1) → w1 = extend w [Returned (Call_print line)].
Proof.
  rewrite print_extend. destruct (stdout_write line); by intros [= <-].
Qed.

Lemma ret_inv {A} (a : A) w r w1 : ret a w = (r, w1) → r = Ok a ∧ w1 = w.
Proof. by intros [= <- <-]. Qed.

Lemma bind_Ok_inv {A B} (m : M A) (k : A → M B) w b w' :
  bind m k w = (Ok b, w') →
  ∃ a w1, m w = (Ok a, w1) ∧ k a w1 = (Ok b, w').
Proof. intros [?|(e & _ & ?)]%bind_inv; [done|discriminate]. Qed.

Lemma fit_second_Ok_inv i (c1 c2 : Image) w c2' w1 :
  (if negb (size_eqb (Image_size c1) (Image_size c2))
   then bind (print (msg_size i (Image_size c1) (Image_size c2)))
             (λ _, py_resize c2 (Image_size c1) LANCZOS)
   else ret c2) w = (Ok c2', w1) →
  fit_second c1 c2 = Ok c2' ∧ w1 = extend w (fit_events i c1 c2).
Proof.
  unfold fit_second, fit_events.
  destruct (size_eqb (Image_size c1) (Image_size c2)); cbn [negb].
  - intros [[= <-] <-]%ret_inv. by rewrite extend_nil.
  - intros (u & w2 & ->%print_Ok_inv & Hr)%bind_Ok_inv.
    apply libcall_Ok_inv in Hr as [-> ->]; [|done].
    by rewrite extend_app.
Qed.

Lemma fs_extend w evs : fs (extend w evs) = replay evs (fs w).
Proof. done. Qed.

Lemma replay_diff_events i img1 img2 c1 c2 c2' blank fs0 :
  replay (diff_events i img1 img2 c1 c2 c2' blank) fs0 = fs0.
Proof.
  unfold diff_events, fit_events. rewrite !replay_app.
  by destruct (size_eqb _ _).
Qed.

Lemma loop_body_paired_Ok output_dir i img1 img2 d w d' w' :
  loop_body output_dir (i, (Some img1, Some img2)) d w = (Ok d', w') →
  ∃ c1 c2 c2' blank n overlay,
    Image_convert img1 "RGBA" = Ok c1
    ∧ Image_convert img2 "RGBA" = Ok c2
    ∧ fit_second c1 c2 = Ok c2'
    ∧ Image_new "RGBA" (Image_size c1) = Ok blank
    ∧ pixelmatch c1 c2' blank (1 # 10) = Ok (n, overlay)
    ∧ if (0 <? n)%Z then
        ∃ h, Image_alpha_composite c1 overlay = Ok h
             ∧ write_file (fs w) (diff_path output_dir i) h = Ok (fs w')
             ∧ d' = true
             ∧ w' = extend w (diff_events i img1 img2 c1 c2 c2' blank
                              ++ [Returned (Call_alpha_composite c1 overlay);
                                  Returned (Call_save h (diff_path output_dir i));
                                  Returned (Call_print (msg_found i n))])
      else d' = d ∧ w' = extend w (diff_events i img1 img2 c1 c2 c2' blank).
Proof.
  unfold loop_body. intros H.
  apply bind_Ok_inv in H as (c1 & w1 & H1 & H).
  apply libcall_Ok_inv in H1 as [Hc1 ->]; [|done].
  apply bind_Ok_inv in H as (c2 & w2 & H2 & H).
  apply libcall_Ok_inv in H2 as [Hc2 ->]; [|done].
  apply bind_Ok_inv in H as (c2' & w3 & H3 & H).
  apply fit_second_Ok_inv in H3 as [Hfit ->].
  apply bind_Ok_inv in H as (blank & w4 & H4 & H).
  apply libcall_Ok_inv in H4 as [Hnew ->]; [|done].
  apply bind_Ok_inv in H as ([n overlay] & w5 & H5 & H).
  apply libcall_Ok_inv in H5 as [Hpm ->]; [|done].
  rewrite !extend_app in H.
  exists c1, c2, c2', blank, n, overlay. split_and!; try done.
  change ([Returned (Call_convert img1 "RGBA")] ++
          [Returned (Call_convert img2 "RGBA")] ++
          fit_events i c1 c2 ++
          [Returned (Call_new "RGBA" (Image_size c1))] ++
          [Returned (Call_pixelmatch c1 c2' blank (1 # 10))])
    with (diff_events i img1 img2 c1 c2 c2' blank) in H.
  rewrite joinpath_diff_page_name in H.
  fold (diff_path output_dir i) in H.
  destruct (0 <? n)%Z.
  - apply bind_Ok_inv in H as (h & w6 & H6 & H).
    apply libcall_Ok_inv in H6 as [Hh ->]; [|done].
    apply bind_Ok_inv in H as (u & w7 & H7 & H).
    apply py_save_Ok_inv in H7 as [Hw ->].
    apply bind_Ok_inv in H as (u' & w8 & ->%print_Ok_inv & H).
    apply ret_inv in H as [[= <-] ->].
    exists h. split_and!; try done.
    + repeat rewrite fs_extend in Hw. repeat rewrite fs_extend.
      rewrite replay_diff_events in Hw. rewrite replay_diff_events.
      exact Hw.
    + by rewrite !extend_app.
  - by apply ret_inv in H as [[= <-] ->].
Qed.

Lemma loop_body_missing output_dir i pair img d w :
  pair = (Some img, None) ∨ pair = (None, Some img) →
  loop_body output_dir (i, pair) d w
  = match write_file (fs w) (diff_path output_dir i) img with
    | Ok _ =>
        match stdout_write (msg_missing i) with
        | Ok _ =>
            (Ok d, extend w [Returned (Call_save img (diff_path output_dir i));
                             Returned (Call_print (msg_missing i))])
        | Raise e =>
            (Raise e,
             extend w [Returned (Call_save img (diff_path output_dir i));
                       Raised (Call_print (msg_missing i)) e])
        end
    | Raise e =>
        (Raise e, extend w [Raised (Call_save img (diff_path output_dir i)) e])
    end.
Proof.
  intros Hpair.
  assert (loop_body output_dir (i, pair) d w
          = bind (py_save img (diff_path output_dir i))
                 (λ _, bind (print (msg_missing i)) (λ _, ret d)) w) as ->.
  { unfold loop_body, diff_path. rewrite joinpath_diff_page_name.
    by destruct Hpair as [-> | ->]. }
  unfold bind at 1. rewrite py_save_extend.
  destruct (write_file (fs w) (diff_path output_dir i) img); [|done].
  unfold bind. rewrite print_extend.
  destruct (stdout_write (msg_missing i)); unfold ret; by rewrite extend_app.
Qed.

(** ** The loop *)

Lemma for_each_app {X S} (xs ys : list X) (body : X → S → M S) s w :
  for_each (xs ++ ys) body s w
  = bind (for_each xs body s) (for_each ys body) w.
Proof.
  revert s w. induction xs as [|x xs IH]; intros s w; simpl; [done|].
  unfold bind. destruct (body x s w) as [[s1|e] w1]; [|reflexivity].
  apply IH.
Qed.

Lemma for_each_Ok_split {X St} (xs : list X) (body : X → St → M St) k x
    s w s' w' :
  for_each xs body s w = (Ok s', w') → xs !! k = Some x →
  ∃ s1 w1 s2 w2,
    for_each (take k xs) body s w = (Ok s1, w1)
    ∧ body x s1 w1 = (Ok s2, w2)
    ∧ for_each (drop (S k) xs) body s2 w2 = (Ok s', w').
Proof.
  intros Hrun Hk.
  rewrite <-(take_drop_middle xs k x Hk) in Hrun.
  rewrite for_each_app in Hrun.
  apply bind_Ok_inv in Hrun as (s1 & w1 & Hpre & Hrun).
  simpl in Hrun. apply bind_Ok_inv in Hrun as (s2 & w2 & Hx & Hpost).
  by exists s1, w1, s2, w2.
Qed.

(** ** The run as a whole *)

Lemma ends_Raise_not_clean {A} (e : exn) evs :
  ends (@Raise A e) evs → clean evs = false.
Proof.
  intros (evs' & c & -> & _). rewrite clean_app. simpl.
  by rewrite andb_false_r.
Qed.

(** A run in which no call raises returns. *)
Lemma traced_clean_Ok {A} (m : M A) w r w' :
  traced m → m w = (r, w') → clean (trace w) = true →
  clean (trace w') = true → ∃ a, r = Ok a.
Proof.
  intros Hm Hrun Hw Hw'. destruct (Hm w) as (evs & Hext & Hends).
  rewrite Hrun in Hext, Hends. simpl in *. injection Hext as ->.
  destruct r as [a|e]; [by exists a|].
  apply ends_Raise_not_clean in Hends.
  simpl in Hw'. rewrite clean_app, Hends, andb_false_r in Hw'. done.
Qed.

Lemma compare_pdf_pages_Ok_inv file1 file2 output_dir w b w' :
  compare_pdf_pages file1 file2 output_dir w = (Ok b, w') →
  ∃ images1 images2 fs1,
    convert_from_path file1 100 true = Ok images1
    ∧ convert_from_path file2 100 true = Ok images2
    ∧ Path_mkdir (fs w) (Path output_dir) = Ok fs1
    ∧ fs (extend w (prologue_events file1 file2 output_dir images1 images2))
      = fs1
    ∧ for_each (enumerate (zip_longest images1 images2))
               (loop_body output_dir)
               (negb (length images1 =? length images2)%nat)
               (extend w (prologue_events file1 file2 output_dir
                                          images1 images2))
      = (Ok b, w').
Proof.
  unfold compare_pdf_pages. intros H.
  apply bind_Ok_inv in H as (images1 & w1 & H1 & H).
  apply libcall_Ok_inv in H1 as [Hc1 ->]; [|done].
  apply bind_Ok_inv in H as (images2 & w2 & H2 & H).
  apply libcall_Ok_inv in H2 as [Hc2 ->]; [|done].
  apply bind_Ok_inv in H as (u & w3 & H3 & H).
  apply py_mkdir_Ok_inv in H3 as [Hmk ->].
  apply bind_Ok_inv in H as (d0 & w4 & H4 & H).
  exists images1, images2, (fs w4).
  assert (d0 = negb (length images1 =? length images2)%nat
          ∧ w4 = extend w (prologue_events file1 file2 output_dir
                                           images1 images2)
          ∧ fs w4 = fs (extend (extend (extend w
               [Returned (Call_convert_from_path file1 100 true)])
               [Returned (Call_convert_from_path file2 100 true)])
               [Returned (Call_mkdir (Path output_dir))]))
    as (-> & -> & Hfs).
  { unfold prologue_events.
    destruct (negb (length images1 =? length images2)%nat).
    - apply bind_Ok_inv in H4 as (u' & w5 & ->%print_Ok_inv & H4).
      apply ret_inv in H4 as [[= <-] ->]. by rewrite !extend_app.
    - apply ret_inv in H4 as [[= <-] ->]. rewrite !extend_app.
      by rewrite app_nil_r. }
  split_and!; try done. by rewrite Hfs.
Qed.

(** In a sequence that ends with its only raising call, a raising call is
    the last one. *)
Lemma raised_is_last (pre post evs : list event) c e c' e' :
  pre ++ Raised c e :: post = evs ++ [Raised c' e'] →
  clean evs = true →
  post = [] ∧ pre = evs ∧ c = c' ∧ e = e'.
Proof.
  intros Heq Hclean.
  destruct (decide (post = [])) as [->|Hpost].
  - apply app_inj_tail in Heq as [-> [= -> ->]]. done.
  - destruct (exists_last Hpost) as (post' & z & ->).
    rewrite app_comm_cons, app_assoc in Heq.
    apply app_inj_tail in Heq as [<- _].
    rewrite clean_app in Hclean. simpl in Hclean.
    by rewrite andb_false_r in Hclean.
Qed.

(** ** C9 and C10: failures *)

(** C9. [compare_pdf_pages] has no retry and no exception handling: in
    every run, a call that raises is the last call of the run and its
    exception is the outcome of the run; conversely an exception comes
    out only of the last call made.  The world is left as the calls made
    so far built it (nothing is undone, nothing is recovered). *)
Theorem failures_propagate file1 file2 output_dir fs0 r w' :
  compare_pdf_pages file1 file2 output_dir (boot fs0) = (r, w') →
  (∀ pre c e post,
     trace w' = pre ++ Raised c e :: post →
     r = Raise e ∧ post = [] ∧ clean pre = true)
  ∧ (∀ e, r = Raise e →
          ∃ pre c, trace w' = pre ++ [Raised c e] ∧ clean pre = true)
  ∧ fs w' = replay (trace w') fs0
  ∧ stdout w' = printed (trace w').
Proof.
  intros Hrun.
  destruct (traced_compare_pdf_pages file1 file2 output_dir (boot fs0))
    as (evs & Hext & Hends).
  rewrite Hrun in Hext, Hends. simpl in Hext, Hends.
  injection Hext as ->. simpl. split_and!; [| |done..].
  - intros pre c e post Htr. destruct r as [b|e'].
    + simpl in Hends. rewrite Htr, clean_app in Hends. simpl in Hends.
      by rewrite andb_false_r in Hends.
    + destruct Hends as (evs' & c' & -> & Hclean).
      symmetry in Htr.
      apply raised_is_last in Htr as (-> & -> & -> & ->); done.
  - intros e ->. exact Hends.
Qed.

(** C10. When rasterizing the first or the second PDF raises, the run
    ends with that exception after the rasterization calls alone: the
    directory is not created, nothing is saved or printed, and the file
    system is the one the run found. *)
Theorem rasterization_failure_writes_nothing file1 file2 output_dir fs0 e :
  convert_from_path file1 100 true = Raise e
  ∨ (is_Ok (convert_from_path file1 100 true) = true
     ∧ convert_from_path file2 100 true = Raise e) →
  ∃ w', compare_pdf_pages file1 file2 output_dir (boot fs0) = (Raise e, w')
        ∧ fs w' = fs0
        ∧ stdout w' = []
        ∧ (trace w' = [Raised (Call_convert_from_path file1 100 true) e]
           ∨ trace w' = [Returned (Call_convert_from_path file1 100 true);
                         Raised (Call_convert_from_path file2 100 true) e]).
Proof.
  unfold compare_pdf_pages, bind, py_convert_from_path, libcall, syscall.
  intros [H1|[H1 H2]]; simpl.
  - rewrite H1. eexists. split; [done|]. simpl. auto.
  - destruct (convert_from_path file1 100 true) as [images1|]; [|done].
    simpl. rewrite H2. eexists. split; [done|]. simpl. auto.
Qed.

(** ** C7: the command line *)


(** ** C1: the result *)

Lemma pixel_diff_intro img1 img2 c1 c2 c2' blank n overlay :
  Image_convert img1 "RGBA" = Ok c1 →
  Image_convert img2 "RGBA" = Ok c2 →
  fit_second c1 c2 = Ok c2' →
  Image_new "RGBA" (Image_size c1) = Ok blank →
  pixelmatch c1 c2' blank (1 # 10) = Ok (n, overlay) →
  pixel_diff img1 img2 = Ok (n, c1, overlay).
Proof.
  intros H1 H2 H3 H4 H5. unfold pixel_diff.
  rewrite H1; simpl. rewrite H2; simpl. rewrite H3; simpl.
  rewrite H4; simpl. by rewrite H5.
Qed.

Lemma loop_body_pixel_diff output_dir i img1 img2 d w d' w' :
  loop_body output_dir (i, (Some img1, Some img2)) d w = (Ok d', w') →
  ∃ n c1 overlay,
    pixel_diff img1 img2 = Ok (n, c1, overlay)
    ∧ d' = (if (0 <? n)%Z then true else d).
Proof.
  intros (c1 & c2 & c2' & blank & n & overlay & H1 & H2 & H3 & H4 & H5 & H)
    %loop_body_paired_Ok.
  exists n, c1, overlay. split; [by eapply pixel_diff_intro|].
  destruct (0 <? n)%Z.
  - by destruct H as (h & _ & _ & -> & _).
  - by destruct H as [-> _].
Qed.

Lemma loop_body_flag output_dir i pair d w d' w' :
  loop_body output_dir (i, pair) d w = (Ok d', w') →
  d' = d || page_differs pair.
Proof.
  destruct pair as [[img1|] [img2|]].
  - intros (n & c1 & overlay & Hpd & ->)%loop_body_pixel_diff.
    unfold page_differs. rewrite Hpd.
    destruct (0 <? n)%Z; by rewrite ?orb_true_r, ?orb_false_r.
  - rewrite (loop_body_missing _ _ _ img1) by auto.
    destruct (write_file _ _ _); [|done].
    destruct (stdout_write _); [|done].
    intros [= <- _]. by rewrite orb_false_r.
  - rewrite (loop_body_missing _ _ _ img2) by auto.
    destruct (write_file _ _ _); [|done].
    destruct (stdout_write _); [|done].
    intros [= <- _]. by rewrite orb_false_r.
  - done.
Qed.

Lemma for_each_flag output_dir xs d w b w' :
  for_each xs (loop_body output_dir) d w = (Ok b, w') →
  b = d || existsb (λ x, page_differs x.2) xs.
Proof.
  revert d w. induction xs as [|[i pair] xs IH]; intros d w; simpl.
  - intros [= <- _]. by rewrite orb_false_r.
  - intros (d1 & w1 & Hbody & Hrest)%bind_Ok_inv.
    apply loop_body_flag in Hbody as ->.
    apply IH in Hrest as ->. by rewrite orb_assoc.
Qed.

Lemma pages_lookup (images1 images2 : list Image) i :
  i < max (length images1) (length images2) →
  enumerate (zip_longest images1 images2) !! i
  = Some (i, (images1 !! i, images2 !! i)).
Proof.
  intros Hi. rewrite enumerate_lookup, zip_longest_lookup by done. done.
Qed.

(** In a run of the loop that returns, every pair of pages was diffed. *)
Lemma for_each_pixel_diff output_dir (images1 images2 : list Image)
    d w b w' i img1 img2 :
  for_each (enumerate (zip_longest images1 images2))
           (loop_body output_dir) d w = (Ok b, w') →
  images1 !! i = Some img1 → images2 !! i = Some img2 →
  ∃ n c1 overlay, pixel_diff img1 img2 = Ok (n, c1, overlay).
Proof.
  intros Hrun H1 H2.
  assert (i < max (length images1) (length images2)) as Hi.
  { apply lookup_lt_Some in H1. lia. }
  apply pages_lookup in Hi. rewrite H1, H2 in Hi.
  destruct (for_each_Ok_split _ _ _ _ _ _ _ _ Hrun Hi)
    as (d1 & w1 & d2 & w2 & _ & Hbody & _).
  apply loop_body_pixel_diff in Hbody as (n & c1 & overlay & ? & _).
  eauto.
Qed.

Lemma pages_differ_iff (images1 images2 : list Image) :
  existsb (λ x, page_differs x.2) (enumerate (zip_longest images1 images2))
  = true
  ↔ ∃ i img1 img2 n c1 overlay,
      images1 !! i = Some img1 ∧ images2 !! i = Some img2
      ∧ pixel_diff img1 img2 = Ok (n, c1, overlay) ∧ (0 < n)%Z.
Proof.
  rewrite existsb_exists. split.
  - intros ([i pair] & Hin%list_elem_of_In & Hd).
    apply pages_elem_of in Hin as [-> _]. simpl in Hd.
    unfold page_differs in Hd.
    destruct (images1 !! i) as [img1|] eqn:H1; [|done].
    destruct (images2 !! i) as [img2|] eqn:H2; [|done].
    destruct (pixel_diff img1 img2) as [[[n c1] overlay]|] eqn:Hpd; [|done].
    exists i, img1, img2, n, c1, overlay. split_and!; try done. lia.
  - intros (i & img1 & img2 & n & c1 & overlay & H1 & H2 & Hpd & Hn).
    exists (i, (Some img1, Some img2)). split.
    + apply list_elem_of_In, list_elem_of_lookup. exists i.
      rewrite pages_lookup, H1, H2; [done|].
      apply lookup_lt_Some in H1. lia.
    + simpl. rewrite Hpd. lia.
Qed.

(** C1. In a run in which no external call raises, [compare_pdf_pages]
    returns, and it returns true exactly when the page counts differ, or
    some page index has a page in one document only, or the pixel diff
    of some pair of pages counts more than zero mismatched pixels; when
    it returns false the page counts are equal and every pair of pages
    was diffed with no mismatched pixel. *)
Theorem compare_result file1 file2 output_dir fs0 r w' :
  compare_pdf_pages file1 file2 output_dir (boot fs0) = (r, w') →
  clean (trace w') = true →
  ∃ images1 images2 b,
    convert_from_path file1 100 true = Ok images1
    ∧ convert_from_path file2 100 true = Ok images2
    ∧ r = Ok b
    ∧ (b = true ↔
         length images1 ≠ length images2
         ∨ (∃ i, images1 !! i = None ∧ is_Some (images2 !! i)
                 ∨ is_Some (images1 !! i) ∧ images2 !! i = None)
         ∨ (∃ i img1 img2 n c1 overlay,
              images1 !! i = Some img1 ∧ images2 !! i = Some img2
              ∧ pixel_diff img1 img2 = Ok (n, c1, overlay) ∧ (0 < n)%Z))
    ∧ (b = false →
         length images1 = length images2
         ∧ ∀ i img1 img2,
             images1 !! i = Some img1 → images2 !! i = Some img2 →
             ∃ n c1 overlay,
               pixel_diff img1 img2 = Ok (n, c1, overlay) ∧ (n ≤ 0)%Z).
Proof.
  intros Hrun Hclean.
  destruct (traced_clean_Ok _ _ _ _
              (traced_compare_pdf_pages file1 file2 output_dir)
              Hrun eq_refl Hclean) as [b ->].
  apply compare_pdf_pages_Ok_inv in Hrun
    as (images1 & images2 & fs1 & Hc1 & Hc2 & _ & _ & Hloop).
  exists images1, images2, b. split_and!; try done.
  - pose proof (for_each_flag _ _ _ _ _ _ Hloop) as ->.
    rewrite orb_true_iff, negb_true_iff, Nat.eqb_neq, pages_differ_iff.
    split.
    + intros [?|?]; auto.
    + intros [?|[(i & Hi)|?]]; auto. left.
      destruct Hi as [[H1 H2%lookup_lt_is_Some]|[H1%lookup_lt_is_Some H2]];
        apply lookup_ge_None in H1 || apply lookup_ge_None in H2; lia.
  - intros ->. pose proof (for_each_flag _ _ _ _ _ _ Hloop) as Hb.
    symmetry in Hb. apply orb_false_elim in Hb as [Hlen Hnone].
    apply negb_false_iff, Nat.eqb_eq in Hlen. split; [done|].
    intros i img1 img2 H1 H2.
    destruct (for_each_pixel_diff _ _ _ _ _ _ _ _ _ _ Hloop H1 H2)
      as (n & c1 & overlay & Hpd).
    exists n, c1, overlay. split; [done|].
    destruct (decide (0 < n)%Z) as [Hn|?]; [|lia].
    assert (existsb (λ x, page_differs x.2)
              (enumerate (zip_longest images1 images2)) = true) as Hex.
    { apply pages_differ_iff. by exists i, img1, img2, n, c1, overlay. }
    congruence.
Qed.

(** ** The plan of an iteration *)

Lemma replay_no_write evs fs0 : no_write evs = true → replay evs fs0 = fs0.
Proof.
  revert fs0. induction evs as [|ev evs IH]; intros fs0; simpl; [done|].
  intros [Hev Hevs]%andb_prop. unfold replay in *. simpl.
  rewrite IH by done.
  destruct ev as [[]|]; simpl in *; done.
Qed.

Lemma no_write_app evs1 evs2 :
  no_write (evs1 ++ evs2) = no_write evs1 && no_write evs2.
Proof. unfold no_write. apply forallb_app. Qed.

Lemma fs_extend_no_write w evs : no_write evs = true → fs (extend w evs) = fs w.
Proof. intros ?. by rewrite fs_extend, replay_no_write. Qed.

Lemma run_plan_extend p pl w evs0 :
  no_write evs0 = true →
  run_plan p pl (extend w evs0) = run_plan p (prepend evs0 pl) w.
Proof.
  intros Hevs. destruct pl as [r evs|evs img line d]; simpl.
  - by rewrite extend_app.
  - rewrite replay_no_write by done.
    destruct (write_file (fs w) p img); [destruct (stdout_write line)|];
      by rewrite extend_app, app_assoc.
Qed.

Lemma plan_events_prepend evs0 pl :
  plan_events (prepend evs0 pl) = evs0 ++ plan_events pl.
Proof. by destruct pl. Qed.

Lemma has_plan_ext p (m m' : M bool) :
  (∀ w, m w = m' w) → has_plan p m' → has_plan p m.
Proof.
  intros Heq (pl & Hpl & Hrun). exists pl. split; [done|].
  intros w. by rewrite Heq.
Qed.

Lemma has_plan_ret p b : has_plan p (ret b).
Proof.
  exists (PlanPure (Ok b) []). split; [done|].
  intros w. simpl. by rewrite extend_nil.
Qed.

Lemma has_plan_raise p e : has_plan p (raise e).
Proof.
  exists (PlanPure (Raise e) []). split; [done|].
  intros w. simpl. by rewrite extend_nil.
Qed.

Lemma has_plan_after p (evs0 : list event) (m : M bool) (k : M bool) :
  no_write evs0 = true →
  (∀ w, m w = k (extend w evs0)) → has_plan p k → has_plan p m.
Proof.
  intros Hevs Hm (pl & Hpl & Hrun). exists (prepend evs0 pl). split.
  - by rewrite plan_events_prepend, no_write_app, Hevs, Hpl.
  - intros w. by rewrite Hm, Hrun, run_plan_extend.
Qed.

Lemma has_plan_libcall {A} p (c : call) (rr : result A) (k : A → M bool) :
  is_pure_call c = true →
  (∀ a, rr = Ok a → has_plan p (k a)) →
  has_plan p (bind (libcall c rr) k).
Proof.
  intros Hc Hk. destruct rr as [a|e].
  - apply (has_plan_after p [Returned c] _ (k a)); [by destruct c| |auto].
    intros w. unfold bind. by rewrite libcall_extend.
  - exists (PlanPure (Raise e) [Raised c e]). split; [done|].
    intros w. unfold bind. by rewrite libcall_extend.
Qed.

Lemma has_plan_print p line (k : M bool) :
  has_plan p k → has_plan p (bind (print line) (λ _, k)).
Proof.
  destruct (stdout_write line) as [u|e] eqn:Hout.
  - apply (has_plan_after p [Returned (Call_print line)]); [done|].
    intros w. unfold bind. by rewrite print_extend, Hout.
  - intros _. exists (PlanPure (Raise e) [Raised (Call_print line) e]).
    split; [done|]. intros w. unfold bind. by rewrite print_extend, Hout.
Qed.

Lemma has_plan_save p img line d :
  has_plan p (bind (py_save img p)
                   (λ _, bind (print line) (λ _, ret d))).
Proof.
  exists (PlanSave [] img line d). split; [done|].
  intros w. unfold bind at 1. rewrite py_save_extend. simpl.
  destruct (write_file (fs w) p img); [|done].
  unfold bind. rewrite print_extend.
  destruct (stdout_write line); unfold ret; by rewrite extend_app.
Qed.

Lemma bind_assoc {A B C} (m : M A) (f : A → M B) (g : B → M C) w :
  bind (bind m f) g w = bind m (λ a, bind (f a) g) w.
Proof. unfold bind. by destruct (m w) as [[a|e] w1]. Qed.

Lemma loop_body_has_plan output_dir i pair d :
  has_plan (diff_path output_dir i) (loop_body output_dir (i, pair) d).
Proof.
  unfold loop_body. rewrite joinpath_diff_page_name.
  fold (diff_path output_dir i).
  destruct pair as [[img1|] [img2|]]; simpl;
    [|apply has_plan_save..|apply has_plan_raise].
  apply has_plan_libcall; [done|intros c1 _].
  apply has_plan_libcall; [done|intros c2 _].
  assert (∀ c2', has_plan (diff_path output_dir i)
    (bind (py_new "RGBA" (Image_size c1)) (λ diff_img,
     bind (py_pixelmatch c1 c2' diff_img (1 # 10)) (λ r,
       let '(mismatch, diff_img0) := r in
       if (0 <? mismatch)%Z
       then bind (py_alpha_composite c1 diff_img0) (λ highlighted,
            bind (py_save highlighted (diff_path output_dir i)) (λ _,
            bind (print (msg_found i mismatch)) (λ _, ret true)))
       else ret d)))) as Hrest.
  { intros c2'.
    apply has_plan_libcall; [done|intros blank _].
    apply has_plan_libcall; [done|intros [n overlay] _].
    destruct (0 <? n)%Z; [|apply has_plan_ret].
    apply has_plan_libcall; [done|intros h _].
    apply has_plan_save. }
  destruct (size_eqb (Image_size c1) (Image_size c2)); cbn [negb].
  - eapply has_plan_ext; [|apply (Hrest c2)]. done.
  - eapply has_plan_ext; [intros w; apply bind_assoc|]. cbv beta.
    apply (has_plan_print _ (msg_size i (Image_size c1) (Image_size c2))).
    apply has_plan_libcall; [done|intros c2' _].
    apply Hrest.
Qed.

Lemma run_plan_fs p pl w r w1 :
  no_write (plan_events pl) = true → run_plan p pl w = (r, w1) →
  fs w1 = fs w ∨ ∃ img, write_file (fs w) p img = Ok (fs w1).
Proof.
  intros Hpl. destruct pl as [r' evs|evs img line d]; simpl in *.
  - intros [= <- <-]. left. by apply fs_extend_no_write.
  - destruct (write_file (fs w) p img) as [fs1|e] eqn:Hw.
    + intros Hrun. right. exists img.
      assert (fs w1 = fs1) as ->; [|done].
      destruct (stdout_write line); injection Hrun as _ <-;
        rewrite fs_extend, replay_app, (replay_no_write evs) by done;
        unfold replay; simpl; by rewrite Hw.
    + intros [= <- <-]. left.
      rewrite fs_extend, replay_app, (replay_no_write evs) by done. done.
Qed.

Lemma loop_body_fs output_dir i pair d w r w1 :
  loop_body output_dir (i, pair) d w = (r, w1) →
  fs w1 = fs w
  ∨ ∃ img, write_file (fs w) (diff_path output_dir i) img = Ok (fs w1).
Proof.
  destruct (loop_body_has_plan output_dir i pair d) as (pl & Hpl & Hrun).
  rewrite Hrun. by apply run_plan_fs.
Qed.

Lemma enumerate_from_elem_of {A} (l : list A) k i x :
  (i, x) ∈ enumerate_from k l → k ≤ i.
Proof.
  intros (j & Hj)%list_elem_of_lookup. rewrite enumerate_from_lookup in Hj.
  destruct (l !! j); [|done]. injection Hj as <- _. lia.
Qed.

Lemma diff_path_inj output_dir i j :
  diff_path output_dir i = diff_path output_dir j → i = j.
Proof.
  intros Heq. apply diff_page_name_inj.
  change (hd "" (diff_path output_dir i) = hd "" (diff_path output_dir j)).
  by rewrite Heq.
Qed.

(** The loop only writes the diff images of its pages, and it leaves the
    directories as they are. *)
Lemma for_each_frame output_dir
    (xs : list (nat * (option Image * option Image))) d w r w' :
  for_each xs (loop_body output_dir) d w = (r, w') →
  (∀ q, is_dir (fs w') q = is_dir (fs w) q)
  ∧ (∀ q, (∀ j pair, (j, pair) ∈ xs → q ≠ diff_path output_dir j) →
          fs w' !! q = fs w !! q).
Proof.
  revert d w. induction xs as [|[k pair] xs IH]; intros d w; simpl.
  - by intros [= _ <-].
  - intros [(d1 & w1 & Hbody & Hrest)|(e & Hbody & ->)]%bind_inv.
    + apply IH in Hrest as [Hdirs Hframe].
      apply loop_body_fs in Hbody as [Hfs|(img & Hw)].
      * rewrite Hfs in *. split; [done|].
        intros q Hq. apply Hframe. intros j pr Hj. eapply Hq. by right.
      * split.
        -- intros q. rewrite Hdirs. by eapply write_file_is_dir.
        -- intros q Hq.
           rewrite Hframe by (intros j pr Hj; eapply Hq; by right).
           apply write_file_Ok in Hw as (-> & _).
           rewrite lookup_insert_ne; [done|]. intros <-.
           eapply Hq; [by left|done].
    + apply loop_body_fs in Hbody as [Hfs|(img & Hw)].
      * by rewrite Hfs.
      * split.
        -- intros q. by eapply write_file_is_dir.
        -- intros q Hq. apply write_file_Ok in Hw as (-> & _).
           rewrite lookup_insert_ne; [done|]. intros <-.
           eapply Hq; [by left|done].
Qed.




Lemma is_dir_replay_event fs0 ev q :
  is_dir fs0 q = true → is_dir (replay_event fs0 ev) q = true.
Proof.
  intros Hq. destruct ev as [[]|]; simpl; try done.
  - destruct (Path_mkdir fs0 p) as [fs1|] eqn:Hm; [|done].
    apply Path_mkdir_post in Hm as (_ & Hmono & _). auto.
  - destruct (write_file fs0 p img) as [fs1|] eqn:Hw; [|done].
    by rewrite (write_file_is_dir _ _ _ _ _ Hw).
Qed.

Lemma is_dir_replay evs fs0 q :
  is_dir fs0 q = true → is_dir (replay evs fs0) q = true.
Proof.
  revert fs0. unfold replay.
  induction evs as [|ev evs IH]; intros fs0 Hq; simpl; [done|].
  by apply IH, is_dir_replay_event.
Qed.

Lemma compare_pdf_pages_unfold file1 file2 output_dir w :
  compare_pdf_pages file1 file2 output_dir w
  = match convert_from_path file1 100 true with
    | Raise e =>
        (Raise e, extend w [Raised (Call_convert_from_path file1 100 true) e])
    | Ok images1 =>
        match convert_from_path file2 100 true with
        | Raise e =>
            (Raise e,
             extend w [Returned (Call_convert_from_path file1 100 true);
                       Raised (Call_convert_from_path file2 100 true) e])
        | Ok images2 =>
            match Path_mkdir (fs w) (Path output_dir) with
            | Raise e =>
                (Raise e,
                 extend w [Returned (Call_convert_from_path file1 100 true);
                           Returned (Call_convert_from_path file2 100 true);
                           Raised (Call_mkdir (Path output_dir)) e])
            | Ok _ =>
                match warning_write images1 images2 with
                | Raise e =>
                    (Raise e,
                     extend w
                       [Returned (Call_convert_from_path file1 100 true);
                        Returned (Call_convert_from_path file2 100 true);
                        Returned (Call_mkdir (Path output_dir));
                        Raised (Call_print (msg_page_count
                                  (length images1) (length images2))) e])
                | Ok _ =>
                    for_each (enumerate (zip_longest images1 images2))
                             (loop_body output_dir)
                             (negb (length images1 =? length images2)%nat)
                             (extend w (prologue_events file1 file2
                                          output_dir images1 images2))
                end
            end
        end
    end.
Proof.
  unfold compare_pdf_pages, bind at 1.
  unfold py_convert_from_path at 1. rewrite libcall_extend by done.
  destruct (convert_from_path file1 100 true) as [images1|e]; [|done].
  unfold bind at 1.
  unfold py_convert_from_path. rewrite libcall_extend by done.
  destruct (convert_from_path file2 100 true) as [images2|e];
    [|by rewrite extend_app].
  unfold bind at 1. rewrite py_mkdir_extend.
  rewrite fs_extend, fs_extend. change (replay _ (replay _ (fs w))) with (fs w).
  destruct (Path_mkdir (fs w) (Path output_dir)) as [fs1|e];
    [|by rewrite !extend_app].
  unfold bind at 1, prologue_events, warning_write.
  destruct (negb (length images1 =? length images2)%nat).
  - unfold bind at 1. rewrite print_extend.
    destruct (stdout_write _); unfold ret; by rewrite !extend_app.
  - unfold ret. by rewrite !extend_app, app_nil_r.
Qed.

Lemma replay_prologue file1 file2 output_dir images1 images2 fs0 fs1 :
  Path_mkdir fs0 (Path output_dir) = Ok fs1 →
  replay (prologue_events file1 file2 output_dir images1 images2) fs0 = fs1.
Proof.
  intros Hmk. unfold prologue_events. rewrite replay_app.
  unfold replay at 2. simpl. rewrite Hmk. by destruct (negb _).
Qed.

(** ** C8: running twice *)




(** ** C3: the directory comes first *)

Lemma fs_wf_replay evs fs0 : fs_wf fs0 → fs_wf (replay evs fs0).
Proof.
  revert fs0. unfold replay.
  induction evs as [|ev evs IH]; intros fs0 Hwf; simpl; [done|].
  apply IH. destruct ev as [[]|]; simpl; try done.
  - destruct (Path_mkdir fs0 p) as [fs1|] eqn:Hm; [|done].
    by eapply Path_mkdir_wf.
  - destruct (write_file fs0 p img) as [fs1|] eqn:Hw; [|done].
    by eapply write_file_wf.
Qed.

Lemma traced_extend {A} (m : M A) w r w' :
  traced m → m w = (r, w') → ∃ evs, w' = extend w evs ∧ ends r evs.
Proof.
  intros Hm Hrun. destruct (Hm w) as (evs & Hext & Hends).
  rewrite Hrun in Hext, Hends. injection Hext as ->. by exists evs.
Qed.

(** C3. In every run, also one that ends in an exception, a call of
    [save] comes after the call that creates the output directory has
    returned, and when [save] is called the output directory and all its
    ancestors exist as directories. *)
Theorem directory_exists_before_saves file1 file2 output_dir fs0 r w'
    pre ev post :
  fs_wf fs0 →
  compare_pdf_pages file1 file2 output_dir (boot fs0) = (r, w') →
  trace w' = pre ++ ev :: post →
  is_save ev = true →
  Returned (Call_mkdir (Path output_dir)) ∈ pre
  ∧ ∀ q, q `suffix_of` Path output_dir → is_dir (replay pre fs0) q = true.
Proof.
  intros Hwf. rewrite compare_pdf_pages_unfold. simpl fs.
  destruct (convert_from_path file1 100 true) as [images1|e].
  2:{ intros [= <- <-] Htr Hsave. simpl in Htr.
      destruct pre as [|? [|? ?]]; simplify_eq/=. }
  destruct (convert_from_path file2 100 true) as [images2|e].
  2:{ intros [= <- <-] Htr Hsave. simpl in Htr.
      destruct pre as [|? [|? [|? ?]]]; simplify_eq/=. }
  destruct (Path_mkdir fs0 (Path output_dir)) as [fs1|e] eqn:Hmk.
  2:{ intros [= <- <-] Htr Hsave. simpl in Htr.
      destruct pre as [|? [|? [|? [|? ?]]]]; simplify_eq/=. }
  destruct (warning_write images1 images2) as [u|e].
  2:{ intros [= <- <-] Htr Hsave. simpl in Htr.
      destruct pre as [|? [|? [|? [|? [|? ?]]]]]; simplify_eq/=. }
  intros (evs & -> & _)%(traced_extend _ _ _ _ (traced_pages _ _ _ _)).
  intros Htr Hsave. unfold prologue_events in Htr. simpl in Htr.
  destruct pre as [|x1 [|x2 [|x3 pre']]]; simplify_eq/=.
  split; [set_solver|].
  intros q Hq. rewrite Hmk.
  change (is_dir (replay pre' fs1) q = true).
  apply fs_wf_ancestors with (Path output_dir); [| |done].
  - apply fs_wf_replay. by eapply Path_mkdir_wf.
  - apply is_dir_replay. by apply Path_mkdir_post in Hmk as (? & _).
Qed.

(** ** The iterations of a run *)

Lemma saves_app evs1 evs2 : saves (evs1 ++ evs2) = saves evs1 ++ saves evs2.
Proof. unfold saves. apply omap_app. Qed.

Lemma saves_diff_events i img1 img2 c1 c2 c2' blank :
  saves (diff_events i img1 img2 c1 c2 c2' blank) = [].
Proof.
  unfold diff_events, fit_events. rewrite !saves_app.
  by destruct (size_eqb _ _).
Qed.

Lemma page_artifact_paired img1 img2 n c1 overlay :
  pixel_diff img1 img2 = Ok (n, c1, overlay) →
  page_artifact (Some img1, Some img2)
  = if (0 <? n)%Z
    then rbind (Image_alpha_composite c1 overlay) (λ h, Ok (Some h))
    else Ok None.
Proof. intros Hpd. unfold page_artifact. by rewrite Hpd. Qed.

(** An iteration that returns has saved the artifact of its page, or
    nothing when the page has none. *)
Lemma loop_body_Ok_artifact output_dir i pair d w d' w' :
  loop_body output_dir (i, pair) d w = (Ok d', w') →
  ∃ a evs,
    page_artifact pair = Ok a
    ∧ w' = extend w evs
    ∧ match a with
      | Some img =>
          write_file (fs w) (diff_path output_dir i) img = Ok (fs w')
          ∧ saves evs = [(diff_path output_dir i, img)]
      | None => fs w' = fs w ∧ saves evs = []
      end.
Proof.
  destruct pair as [[img1|] [img2|]].
  - intros Hbody.
    pose proof Hbody as (n & c1' & ov' & Hpd & _)%loop_body_pixel_diff.
    apply loop_body_paired_Ok in Hbody
      as (c1 & c2 & c2' & blank & n' & overlay & H1 & H2 & H3 & H4 & H5 & H).
    rewrite (pixel_diff_intro _ _ _ _ _ _ _ _ H1 H2 H3 H4 H5) in Hpd.
    injection Hpd as <- <- <-.
    rewrite (page_artifact_paired _ _ _ _ _
               (pixel_diff_intro _ _ _ _ _ _ _ _ H1 H2 H3 H4 H5)).
    destruct (0 <? n')%Z.
    + destruct H as (h & Hh & Hw & -> & ->). rewrite Hh. cbn [rbind].
      eexists (Some h), _. split_and!; [done|done|done|].
      rewrite saves_app, saves_diff_events. done.
    + destruct H as [-> ->]. eexists None, _. split_and!; [done|done| |].
      * by rewrite fs_extend, replay_diff_events.
      * apply saves_diff_events.
  - rewrite (loop_body_missing _ _ _ img1) by auto.
    destruct (write_file (fs w) _ img1) as [fs1|] eqn:Hw; [|done].
    destruct (stdout_write _); [|done].
    intros [= <- <-]. eexists (Some img1), _. split_and!; [done|done| |done].
    rewrite fs_extend. unfold replay. simpl. by rewrite Hw.
  - rewrite (loop_body_missing _ _ _ img2) by auto.
    destruct (write_file (fs w) _ img2) as [fs1|] eqn:Hw; [|done].
    destruct (stdout_write _); [|done].
    intros [= <- <-]. eexists (Some img2), _. split_and!; [done|done| |done].
    rewrite fs_extend. unfold replay. simpl. by rewrite Hw.
  - done.
Qed.

Lemma for_each_saves output_dir
    (xs : list (nat * (option Image * option Image))) d w b w' :
  for_each xs (loop_body output_dir) d w = (Ok b, w') →
  saves (trace w') = saves (trace w) ++ omap (artifact_of output_dir) xs.
Proof.
  revert d w. induction xs as [|[i pair] xs IH]; intros d w; simpl.
  - intros [= _ <-]. by rewrite app_nil_r.
  - intros (d1 & w1 & Hbody & Hrest)%bind_Ok_inv.
    apply IH in Hrest as ->.
    apply loop_body_Ok_artifact in Hbody as (a & evs & Ha & -> & Hsv).
    assert (artifact_of output_dir (i, pair)
            = match a with
              | Some img => Some (diff_path output_dir i, img)
              | None => None
              end) as ->.
    { unfold artifact_of. simpl. by rewrite Ha. }
    simpl trace. rewrite saves_app, <-app_assoc. f_equal.
    destruct a as [img|]; by destruct Hsv as [_ ->].
Qed.

Lemma take_pages_elem_of (images1 images2 : list Image) k j pair :
  (j, pair) ∈ take k (enumerate (zip_longest images1 images2)) → j < k.
Proof.
  intros (n & Hn)%list_elem_of_lookup.
  apply lookup_take_Some in Hn as [Hn Hlt].
  rewrite enumerate_lookup in Hn.
  destruct (zip_longest images1 images2 !! n); [|done].
  by injection Hn as <- _.
Qed.

Lemma drop_pages_elem_of (images1 images2 : list Image) k j pair :
  (j, pair) ∈ drop k (enumerate (zip_longest images1 images2)) → k ≤ j.
Proof.
  intros (n & Hn)%list_elem_of_lookup.
  rewrite lookup_drop, enumerate_lookup in Hn.
  destruct (zip_longest images1 images2 !! (k + n)); [|done].
  injection Hn as <- _. lia.
Qed.

(** A run that returns went through every iteration of the loop. *)
Lemma run_iteration file1 file2 output_dir fs0 b w' images1 images2 i :
  compare_pdf_pages file1 file2 output_dir (boot fs0) = (Ok b, w') →
  convert_from_path file1 100 true = Ok images1 →
  convert_from_path file2 100 true = Ok images2 →
  i < max (length images1) (length images2) →
  ∃ fs1 d w_i d' w_i',
    Path_mkdir fs0 (Path output_dir) = Ok fs1
    ∧ after_pages file1 file2 output_dir fs0 images1 images2 i = (Ok d, w_i)
    ∧ loop_body output_dir (i, (images1 !! i, images2 !! i)) d w_i
      = (Ok d', w_i')
    ∧ after_pages file1 file2 output_dir fs0 images1 images2 (S i)
      = (Ok d', w_i')
    ∧ for_each (drop (S i) (enumerate (zip_longest images1 images2)))
               (loop_body output_dir) d' w_i' = (Ok b, w').
Proof.
  intros Hrun H1 H2 Hi. rewrite compare_pdf_pages_unfold, H1, H2 in Hrun.
  simpl fs in Hrun.
  destruct (Path_mkdir fs0 (Path output_dir)) as [fs1|] eqn:Hmk; [|done].
  destruct (warning_write images1 images2); [|done].
  pose proof (pages_lookup images1 images2 i Hi) as Hl.
  destruct (for_each_Ok_split _ _ _ _ _ _ _ _ Hrun Hl)
    as (d & w_i & d' & w_i' & Hpre & Hbody & Hpost).
  exists fs1, d, w_i, d', w_i'. split_and!; try done.
  unfold after_pages. rewrite (take_S_r _ _ _ Hl), for_each_app.
  rewrite (bind_Ok _ _ _ _ _ Hpre). simpl.
  by rewrite (bind_Ok _ _ _ _ _ Hbody).
Qed.

Lemma after_pages_fs file1 file2 output_dir fs0 images1 images2 i r w_i fs1 :
  Path_mkdir fs0 (Path output_dir) = Ok fs1 →
  after_pages file1 file2 output_dir fs0 images1 images2 i = (r, w_i) →
  (∀ q, is_dir (fs w_i) q = is_dir fs1 q)
  ∧ (∀ q, (∀ j, j < i → q ≠ diff_path output_dir j) →
          fs w_i !! q = fs1 !! q).
Proof.
  intros Hmk [Hdirs Hframe]%for_each_frame.
  assert (fs (extend (boot fs0) (prologue_events file1 file2 output_dir
                                                 images1 images2)) = fs1)
    as Hfs by (rewrite fs_extend; by apply replay_prologue).
  rewrite Hfs in Hdirs, Hframe.
  split; [done|]. intros q Hq. apply Hframe.
  intros j pair Hj%take_pages_elem_of. auto.
Qed.

Lemma after_pages_all file1 file2 output_dir fs0 images1 images2 r w' :
  convert_from_path file1 100 true = Ok images1 →
  convert_from_path file2 100 true = Ok images2 →
  is_Ok (Path_mkdir fs0 (Path output_dir)) = true →
  is_Ok (warning_write images1 images2) = true →
  compare_pdf_pages file1 file2 output_dir (boot fs0) = (r, w') →
  after_pages file1 file2 output_dir fs0 images1 images2
              (max (length images1) (length images2)) = (r, w').
Proof.
  intros H1 H2 Hmk Hwarn. rewrite compare_pdf_pages_unfold, H1, H2. simpl fs.
  destruct (Path_mkdir fs0 (Path output_dir)); [|done].
  destruct (warning_write images1 images2); [|done].
  unfold after_pages. rewrite take_ge; [done|].
  by rewrite enumerate_length, zip_longest_length.
Qed.

Lemma stdout_extend w evs line :
  line ∈ stdout w → line ∈ stdout (extend w evs).
Proof. intros ?. simpl. apply elem_of_app. by left. Qed.

Lemma diff_path_not_ancestor output_dir i :
  ¬ diff_path output_dir i `suffix_of` Path output_dir.
Proof. apply suffix_cons_not. Qed.

Lemma Path_mkdir_lookup_diff_path output_dir i fs0 fs1 :
  Path_mkdir fs0 (Path output_dir) = Ok fs1 →
  fs1 !! diff_path output_dir i = fs0 !! diff_path output_dir i.
Proof.
  intros (_ & _ & Hframe)%Path_mkdir_post.
  destruct (Hframe (diff_path output_dir i)) as [?|(_ & _ & Hsuf)]; [done|].
  by apply diff_path_not_ancestor in Hsuf.
Qed.

(** What the run leaves at the path of the diff image of page [i]:
    what iteration [i] left there. *)
Lemma run_iteration_lookup file1 file2 output_dir fs0 b w' images1 images2
    i fs1 d w_i d' w_i' :
  Path_mkdir fs0 (Path output_dir) = Ok fs1 →
  after_pages file1 file2 output_dir fs0 images1 images2 i = (Ok d, w_i) →
  for_each (drop (S i) (enumerate (zip_longest images1 images2)))
           (loop_body output_dir) d' w_i' = (Ok b, w') →
  fs w_i !! diff_path output_dir i = fs0 !! diff_path output_dir i
  ∧ fs w' !! diff_path output_dir i = fs w_i' !! diff_path output_dir i
  ∧ ∃ evs, w' = extend w_i' evs.
Proof.
  intros Hmk Hpre Hpost. split_and!.
  - apply (after_pages_fs _ _ _ _ _ _ _ _ _ _ Hmk) in Hpre as [_ Hframe].
    rewrite Hframe by (intros j Hj Heq%diff_path_inj; lia).
    by apply Path_mkdir_lookup_diff_path.
  - pose proof Hpost as [_ Hframe]%for_each_frame. apply Hframe.
    intros j pair Hj%drop_pages_elem_of Heq%diff_path_inj. lia.
  - assert (traced (for_each
              (drop (S i) (enumerate (zip_longest images1 images2)))
              (loop_body output_dir) d')) as Htr.
    { apply traced_for_each. intros [j pair] d'' Hin.
      apply traced_loop_body. intros ->.
      apply list_elem_of_lookup in Hin as (n & Hn).
      rewrite lookup_drop, enumerate_lookup in Hn.
      destruct (zip_longest images1 images2 !! (S i + n)) as [pr|] eqn:Hz;
        [|done].
      injection Hn as _ ->.
      by apply zip_longest_not_both_None in Hz. }
    destruct (traced_extend _ _ _ _ Htr Hpost) as (evs & -> & _). eauto.
Qed.

Lemma missing_page_run file1 file2 output_dir fs0 r w' images1 images2 i img :
  compare_pdf_pages file1 file2 output_dir (boot fs0) = (r, w') →
  clean (trace w') = true →
  convert_from_path file1 100 true = Ok images1 →
  convert_from_path file2 100 true = Ok images2 →
  (images1 !! i = Some img ∧ images2 !! i = None)
  ∨ (images1 !! i = None ∧ images2 !! i = Some img) →
  ∃ d w_i,
    after_pages file1 file2 output_dir fs0 images1 images2 i = (Ok d, w_i)
    ∧ after_pages file1 file2 output_dir fs0 images1 images2 (S i)
      = (Ok d,
         {| fs := <[diff_path output_dir i := File img]> (fs w_i);
            stdout := stdout w_i ++ [msg_missing i];
            trace := trace w_i
                     ++ [Returned (Call_save img (diff_path output_dir i));
                         Returned (Call_print (msg_missing i))] |})
    ∧ fs w' !! diff_path output_dir i = Some (File img)
    ∧ msg_missing i ∈ stdout w'.
Proof.
  intros Hrun Hclean H1 H2 Hpair.
  destruct (traced_clean_Ok _ _ _ _
              (traced_compare_pdf_pages file1 file2 output_dir)
              Hrun eq_refl Hclean) as [b ->].
  assert (i < max (length images1) (length images2)) as Hi.
  { destruct Hpair as [[Hl%lookup_lt_Some _]|[_ Hl%lookup_lt_Some]]; lia. }
  destruct (run_iteration _ _ _ _ _ _ _ _ _ Hrun H1 H2 Hi)
    as (fs1 & d & w_i & d' & w_i' & Hmk & Hpre & Hbody & Hnext & Hpost).
  rewrite (loop_body_missing _ _ _ img) in Hbody
    by (destruct Hpair as [[-> ->]|[-> ->]]; auto).
  destruct (write_file (fs w_i) (diff_path output_dir i) img)
    as [fs2|] eqn:Hw; [|done].
  destruct (stdout_write (msg_missing i)); [|done].
  injection Hbody as <- <-.
  apply write_file_Ok in Hw as Hw'. destruct Hw' as (-> & _).
  assert (extend w_i [Returned (Call_save img (diff_path output_dir i));
                      Returned (Call_print (msg_missing i))]
          = {| fs := <[diff_path output_dir i := File img]> (fs w_i);
               stdout := stdout w_i ++ [msg_missing i];
               trace := trace w_i
                        ++ [Returned (Call_save img (diff_path output_dir i));
                            Returned (Call_print (msg_missing i))] |})
    as Hext.
  { unfold extend, replay. simpl. by rewrite Hw. }
  rewrite Hext in Hnext, Hpost.
  destruct (run_iteration_lookup _ _ _ _ _ _ _ _ _ _ _ _ _ _ Hmk Hpre Hpost)
    as (_ & Hl & evs & ->).
  exists d, w_i. split_and!; [done|done| |].
  - rewrite Hl. simpl. by rewrite lookup_insert_eq.
  - apply stdout_extend. simpl. apply elem_of_app. right. by left.
Qed.

Lemma clean_run_after_pages file1 file2 output_dir fs0 r w' images1 images2 :
  compare_pdf_pages file1 file2 output_dir (boot fs0) = (r, w') →
  clean (trace w') = true →
  convert_from_path file1 100 true = Ok images1 →
  convert_from_path file2 100 true = Ok images2 →
  after_pages file1 file2 output_dir fs0 images1 images2
              (max (length images1) (length images2)) = (r, w').
Proof.
  intros Hrun Hclean H1 H2.
  destruct (traced_clean_Ok _ _ _ _
              (traced_compare_pdf_pages file1 file2 output_dir)
              Hrun eq_refl Hclean) as [b ->].
  pose proof Hrun as Hrun'.
  rewrite compare_pdf_pages_unfold, H1, H2 in Hrun'. simpl fs in Hrun'.
  apply after_pages_all; try done.
  - by destruct (Path_mkdir fs0 (Path output_dir)).
  - destruct (Path_mkdir fs0 (Path output_dir)); [|done].
    by destruct (warning_write images1 images2).
Qed.

(** ** C4: a page without counterpart *)

(** C4. In a run in which no external call raises, at a page index [i]
    where exactly one document has a page, iteration [i] of the loop
    consists of two calls: it saves that page as [diff_page_{i+1}.png]
    in the output directory and prints that the page is missing; no
    pixel diff (no other call at all) is made for the index, and the
    loop goes on to the next page with the flag as it was.  The file
    and the line are still there when the run ends.  The line is
    "Page {i+1}: Missing in one of the PDFs." and the path is the name
    [diff_page_{i+1}.png] under the components of the output directory. *)
Theorem missing_page_saved file1 file2 output_dir fs0 r w'
    images1 images2 i img :
  compare_pdf_pages file1 file2 output_dir (boot fs0) = (r, w') →
  clean (trace w') = true →
  convert_from_path file1 100 true = Ok images1 →
  convert_from_path file2 100 true = Ok images2 →
  (images1 !! i = Some img ∧ images2 !! i = None)
  ∨ (images1 !! i = None ∧ images2 !! i = Some img) →
  ∃ d w_i,
    after_pages file1 file2 output_dir fs0 images1 images2 i = (Ok d, w_i)
    ∧ after_pages file1 file2 output_dir fs0 images1 images2 (S i)
      = (Ok d,
         {| fs := <[diff_path output_dir i := File img]> (fs w_i);
            stdout := stdout w_i ++ [msg_missing i];
            trace := trace w_i
                     ++ [Returned (Call_save img (diff_path output_dir i));
                         Returned (Call_print (msg_missing i))] |})
    ∧ after_pages file1 file2 output_dir fs0 images1 images2
                  (max (length images1) (length images2)) = (r, w')
    ∧ diff_path output_dir i
      = joinpath (Path output_dir)
                 ("diff_page_" +:+ pretty (i + 1)%nat +:+ ".png")
    ∧ fs w' !! diff_path output_dir i = Some (File img)
    ∧ msg_missing i ∈ stdout w'
    ∧ msg_missing i
      = "Page " +:+ pretty (i + 1)%nat +:+ ": Missing in one of the PDFs."
    ∧ diff_path output_dir i
      = ("diff_page_" +:+ pretty (i + 1)%nat +:+ ".png")
          :: rev (parts output_dir).
Proof.
  intros Hrun Hclean H1 H2 Hpair.
  destruct (missing_page_run _ _ _ _ _ _ _ _ _ _ Hrun Hclean H1 H2 Hpair)
    as (d & w_i & Hpre & Hnext & Hl & Hline).
  exists d, w_i. split_and!; try done.
  - by apply clean_run_after_pages.
  - symmetry. apply joinpath_diff_page_name.
Qed.

(** ** C5: a pair of pages *)

Lemma size_eqb_eq (s1 s2 : Z * Z) : size_eqb s1 s2 = true ↔ s1 = s2.
Proof.
  unfold size_eqb. destruct s1 as [a b], s2 as [a' b']. simpl.
  rewrite andb_true_iff, !Z.eqb_eq. split; [by intros [-> ->]|].
  by intros [= -> ->].
Qed.

(** C5. In a run in which no external call raises, at a page index [i]
    where both documents have a page, iteration [i] converts both images
    to "RGBA"; when the sizes of the converted images differ it prints
    the mismatch and resizes the second one to the size of the first
    with the LANCZOS filter, otherwise it resizes nothing; then it
    creates a blank "RGBA" image of the size of the first and calls
    [pixelmatch] on the converted first image and the second image as
    resized.  The flag depends on the count of that call only.  The calls
    that follow in the iteration (composite, save, print) contain no
    resize and no pixel diff: the first image is never resized. *)
Theorem paired_page_compared file1 file2 output_dir fs0 r w'
    images1 images2 i img1 img2 :
  compare_pdf_pages file1 file2 output_dir (boot fs0) = (r, w') →
  clean (trace w') = true →
  convert_from_path file1 100 true = Ok images1 →
  convert_from_path file2 100 true = Ok images2 →
  images1 !! i = Some img1 →
  images2 !! i = Some img2 →
  ∃ d w_i c1 c2 c2' blank n overlay evs,
    after_pages file1 file2 output_dir fs0 images1 images2 i = (Ok d, w_i)
    ∧ Image_convert img1 "RGBA" = Ok c1
    ∧ Image_convert img2 "RGBA" = Ok c2
    ∧ (Image_size c1 = Image_size c2 → c2' = c2)
    ∧ (Image_size c1 ≠ Image_size c2 →
       Image_resize c2 (Image_size c1) LANCZOS = Ok c2')
    ∧ Image_new "RGBA" (Image_size c1) = Ok blank
    ∧ pixelmatch c1 c2' blank (1 # 10) = Ok (n, overlay)
    ∧ after_pages file1 file2 output_dir fs0 images1 images2 (S i)
      = (Ok (if (0 <? n)%Z then true else d),
         extend w_i
           ([Returned (Call_convert img1 "RGBA");
             Returned (Call_convert img2 "RGBA")]
            ++ (if size_eqb (Image_size c1) (Image_size c2) then []
                else [Returned (Call_print (msg_size i (Image_size c1)
                                                      (Image_size c2)));
                      Returned (Call_resize c2 (Image_size c1) LANCZOS)])
            ++ [Returned (Call_new "RGBA" (Image_size c1));
                Returned (Call_pixelmatch c1 c2' blank (1 # 10))]
            ++ evs))
    ∧ (∀ ev, ev ∈ evs → is_resize ev = false ∧ is_pixelmatch ev = false)
    ∧ after_pages file1 file2 output_dir fs0 images1 images2
                  (max (length images1) (length images2)) = (r, w').
Proof.
  intros Hrun Hclean H1 H2 Hl1 Hl2.
  pose proof (clean_run_after_pages _ _ _ _ _ _ _ _ Hrun Hclean H1 H2)
    as Hall.
  destruct (traced_clean_Ok _ _ _ _
              (traced_compare_pdf_pages file1 file2 output_dir)
              Hrun eq_refl Hclean) as [b ->].
  assert (i < max (length images1) (length images2)) as Hi.
  { apply lookup_lt_Some in Hl1. lia. }
  destruct (run_iteration _ _ _ _ _ _ _ _ _ Hrun H1 H2 Hi)
    as (fs1 & d & w_i & d' & w_i' & Hmk & Hpre & Hbody & Hnext & Hpost).
  rewrite Hl1, Hl2 in Hbody.
  apply loop_body_paired_Ok in Hbody
    as (c1 & c2 & c2' & blank & n & overlay & Hc1 & Hc2 & Hfit & Hnew & Hpm
        & Hn).
  exists d, w_i, c1, c2, c2', blank, n, overlay.
  exists (if (0 <? n)%Z
          then match Image_alpha_composite c1 overlay with
               | Ok h => [Returned (Call_alpha_composite c1 overlay);
                          Returned (Call_save h (diff_path output_dir i));
                          Returned (Call_print (msg_found i n))]
               | Raise _ => []
               end
          else []).
  unfold fit_second in Hfit. split_and!; try done.
  - intros Heq%size_eqb_eq. rewrite Heq in Hfit. by injection Hfit.
  - intros Hne. destruct (size_eqb _ _) eqn:Heq; [|done].
    by apply size_eqb_eq in Heq.
  - rewrite Hnext. unfold diff_events, fit_events in Hn.
    destruct (0 <? n)%Z.
    + destruct Hn as (h & Hh & _ & -> & ->). rewrite Hh.
      by rewrite <-!app_assoc.
    + by destruct Hn as [-> ->].
  - intros ev Hev. destruct (0 <? n)%Z; [|by apply elem_of_nil in Hev].
    destruct (Image_alpha_composite c1 overlay);
      [|by apply elem_of_nil in Hev].
    repeat (apply elem_of_cons in Hev as [->|Hev]; [done|]).
    by apply elem_of_nil in Hev.
Qed.

(** ** C2: documents of different lengths *)

(** C2. In a run in which no external call raises and the two documents
    have different page counts, the warning is printed right after the
    directory is created and before any page is processed, the result
    is true, and the loop still goes through one iteration per page of
    the longer document, pairing pages by position; at the indices past
    the end of the shorter document the page of the longer one is saved
    and reported as missing. *)
Theorem page_count_mismatch file1 file2 output_dir fs0 r w'
    images1 images2 :
  compare_pdf_pages file1 file2 output_dir (boot fs0) = (r, w') →
  clean (trace w') = true →
  convert_from_path file1 100 true = Ok images1 →
  convert_from_path file2 100 true = Ok images2 →
  length images1 ≠ length images2 →
  r = Ok true
  ∧ (∃ evs,
       trace w'
       = [Returned (Call_convert_from_path file1 100 true);
          Returned (Call_convert_from_path file2 100 true);
          Returned (Call_mkdir (Path output_dir));
          Returned (Call_print (msg_page_count (length images1)
                                               (length images2)))]
         ++ evs)
  ∧ (∃ lines,
       stdout w'
       = msg_page_count (length images1) (length images2) :: lines)
  ∧ after_pages file1 file2 output_dir fs0 images1 images2
                (max (length images1) (length images2)) = (Ok true, w')
  ∧ (∀ i, i < max (length images1) (length images2) →
       ∃ d w_i d' w_i',
         after_pages file1 file2 output_dir fs0 images1 images2 i
         = (Ok d, w_i)
         ∧ loop_body output_dir (i, (images1 !! i, images2 !! i)) d w_i
           = (Ok d', w_i')
         ∧ after_pages file1 file2 output_dir fs0 images1 images2 (S i)
           = (Ok d', w_i'))
  ∧ (∀ i, min (length images1) (length images2) ≤ i →
          i < max (length images1) (length images2) →
       ∃ img,
         ((images1 !! i = Some img ∧ images2 !! i = None)
          ∨ (images1 !! i = None ∧ images2 !! i = Some img))
         ∧ fs w' !! diff_path output_dir i = Some (File img)
         ∧ msg_missing i ∈ stdout w').
Proof.
  intros Hrun Hclean H1 H2 Hlen.
  destruct (traced_clean_Ok _ _ _ _
              (traced_compare_pdf_pages file1 file2 output_dir)
              Hrun eq_refl Hclean) as [b ->].
  pose proof Hrun as (im1 & im2 & fs1 & H1' & H2' & Hmk & _ & Hloop)
    %compare_pdf_pages_Ok_inv.
  rewrite H1 in H1'. rewrite H2 in H2'.
  injection H1' as <-. injection H2' as <-.
  assert (negb (length images1 =? length images2)%nat = true) as Hd0.
  { by apply negb_true_iff, Nat.eqb_neq. }
  assert (b = true) as ->.
  { apply for_each_flag in Hloop as ->. by rewrite Hd0. }
  destruct (traced_extend _ _ _ _ (traced_pages _ _ _ _) Hloop)
    as (evs & Hw' & _).
  unfold prologue_events in Hw'. rewrite Hd0 in Hw'.
  split_and!.
  - done.
  - exists evs. by rewrite Hw'.
  - exists (printed evs). by rewrite Hw'.
  - by apply clean_run_after_pages.
  - intros i Hi.
    destruct (run_iteration _ _ _ _ _ _ _ _ _ Hrun H1 H2 Hi)
      as (_ & d & w_i & d' & w_i' & _ & ? & ? & ? & _).
    by exists d, w_i, d', w_i'.
  - intros i Hmin Hmax.
    assert (∃ img, (images1 !! i = Some img ∧ images2 !! i = None)
                   ∨ (images1 !! i = None ∧ images2 !! i = Some img))
      as [img Hpair].
    { destruct (decide (length images1 < length images2)).
      - destruct (lookup_lt_is_Some_2 images2 i) as [img Himg]; [lia|].
        exists img. right. split; [|done]. apply lookup_ge_None. lia.
      - destruct (lookup_lt_is_Some_2 images1 i) as [img Himg]; [lia|].
        exists img. left. split; [done|]. apply lookup_ge_None. lia. }
    exists img. split; [done|].
    destruct (missing_page_run _ _ _ _ _ _ _ _ _ _ Hrun Hclean H1 H2 Hpair)
      as (_ & _ & _ & _ & ? & ?).
    done.
Qed.

(** ** The vocabulary of a run *)

Lemma emits_ret {A} P (a : A) : emits P (ret a).
Proof. intros w r w' [= <- <-]. exists []. by rewrite extend_nil. Qed.

Lemma emits_raise {A} P e : emits P (@raise A e).
Proof. intros w r w' [= <- <-]. exists []. by rewrite extend_nil. Qed.

Lemma emits_print (P : call → Prop) line :
  P (Call_print line) → emits P (print line).
Proof.
  intros HP w r w'. rewrite print_extend.
  destruct (stdout_write line); intros [= <- <-];
    (eexists; split; [done|]); by repeat constructor.
Qed.

Lemma emits_libcall {A} (P : call → Prop) (c : call) (rr : result A) :
  is_pure_call c = true → P c → emits P (libcall c rr).
Proof.
  intros Hc HP w r w'. rewrite libcall_extend by done.
  destruct rr; intros [= <- <-]; eexists; (split; [done|]);
    by repeat constructor.
Qed.

Lemma emits_py_save (P : call → Prop) img p :
  P (Call_save img p) → emits P (py_save img p).
Proof.
  intros HP w r w'. rewrite py_save_extend.
  destruct (write_file (fs w) p img); intros [= <- <-]; eexists;
    (split; [done|]); by repeat constructor.
Qed.

Lemma emits_py_mkdir (P : call → Prop) p :
  P (Call_mkdir p) → emits P (py_mkdir p).
Proof.
  intros HP w r w'. rewrite py_mkdir_extend.
  destruct (Path_mkdir (fs w) p); intros [= <- <-]; eexists;
    (split; [done|]); by repeat constructor.
Qed.

Lemma emits_bind {A B} P (m : M A) (k : A → M B) :
  emits P m → (∀ a, emits P (k a)) → emits P (bind m k).
Proof.
  intros Hm Hk w r w'
    [(a & w1 & Hmw & Hkw)|(e & Hmw & ->)]%bind_inv.
  - apply Hm in Hmw as (evs1 & -> & H1).
    apply Hk in Hkw as (evs2 & -> & H2).
    exists (evs1 ++ evs2). rewrite extend_app. split; [done|].
    by apply Forall_app.
  - by apply Hm in Hmw.
Qed.

Lemma emits_for_each {X St} P (xs : list X) (body : X → St → M St) s :
  (∀ x s', x ∈ xs → emits P (body x s')) → emits P (for_each xs body s).
Proof.
  revert s. induction xs as [|x xs IH]; intros s Hbody; simpl.
  - apply emits_ret.
  - apply emits_bind.
    + apply Hbody. by left.
    + intros s'. apply IH. intros y s'' Hy. apply Hbody. by right.
Qed.

Lemma emits_mono {A} (P Q : call → Prop) (m : M A) :
  (∀ c, P c → Q c) → emits P m → emits Q m.
Proof.
  intros HPQ Hm w r w' (evs & -> & Hevs)%Hm. exists evs. split; [done|].
  eapply Forall_impl; [exact Hevs|]. intros ev. apply HPQ.
Qed.

Ltac page_call_auto :=
  cbn [page_call page_line];
  first [ reflexivity
        | exact I
        | (left; reflexivity)
        | (right; left; eexists _, _; reflexivity)
        | (right; right; eexists; reflexivity) ].

Ltac emits_auto :=
  repeat first
    [ apply emits_ret
    | apply emits_raise
    | (apply emits_print; page_call_auto)
    | (apply emits_py_save; page_call_auto)
    | (apply emits_libcall; [reflexivity|page_call_auto])
    | (apply emits_bind; [|intros ?])
    | match goal with |- emits _ (if ?b then _ else _) => destruct b end
    | match goal with |- emits _ (let '(_, _) := ?r in _) => destruct r end ].

Lemma emits_loop_body output_dir i pair d :
  emits (page_call output_dir i) (loop_body output_dir (i, pair) d).
Proof.
  unfold loop_body, page_line.
  destruct pair as [[img1|] [img2|]]; cbn [py_or save_existing];
    emits_auto.
Qed.

Lemma page_call_run_call file1 file2 output_dir i c :
  page_call output_dir i c → run_call file1 file2 output_dir c.
Proof.
  destruct c; simpl; intros H; try done; try (by exists i).
  right. by exists i.
Qed.

Lemma page_call_not_prologue output_dir i c :
  page_call output_dir i c → is_prologue_call c = false.
Proof. by destruct c. Qed.

Lemma emits_pages P output_dir
    (xs : list (nat * (option Image * option Image))) d :
  (∀ i c, page_call output_dir i c → P c) →
  emits P (for_each xs (loop_body output_dir) d).
Proof.
  intros HP. apply emits_for_each. intros [i pair] d' _.
  eapply emits_mono; [apply (HP i)|apply emits_loop_body].
Qed.

(** ** C6: the files written *)

Lemma filter_touches_fs_saves evs :
  clean evs = true →
  Forall (λ ev, is_prologue_call (call_of ev) = false) evs →
  List.filter touches_fs evs
  = (λ s : path * Image, Returned (Call_save s.2 s.1)) <$> saves evs.
Proof.
  induction evs as [|ev evs IH]; [done|].
  intros [Hev Hevs]%andb_prop [Hc Hcs]%Forall_cons.
  unfold saves in *. cbn [List.filter omap list_omap].
  rewrite (IH Hevs Hcs).
  destruct ev as [c|c e]; [|done]. by destruct c.
Qed.

Lemma replay_filter_touches_fs evs fs0 :
  replay (List.filter touches_fs evs) fs0 = replay evs fs0.
Proof.
  revert fs0. unfold replay.
  induction evs as [|ev evs IH]; intros fs0; [done|].
  cbn [List.filter]. destruct ev as [c|c e]; destruct c; simpl; apply IH.
Qed.

(** C6 (amended).  In a run in which no external call raises, the files
    written are exactly the diff images of the non-identical pages, one
    [save] per such page, in page order, each under [diff_page_{i+1}.png]
    in the output directory: for a pair of pages with a mismatch count
    above zero the overlay composited onto the first image, for a page
    without counterpart the page itself; for a pair with no mismatch no
    file is written.  The run makes no other call that touches the file
    system, except the one [mkdir] of the output directory, made before
    the first page, which creates the directory and its missing
    ancestors: the file system after the run is the file system before
    it with that [mkdir] and those saves applied, in this order. *)
Theorem files_written file1 file2 output_dir fs0 r w' images1 images2 :
  compare_pdf_pages file1 file2 output_dir (boot fs0) = (r, w') →
  clean (trace w') = true →
  convert_from_path file1 100 true = Ok images1 →
  convert_from_path file2 100 true = Ok images2 →
  saves (trace w')
  = omap (artifact_of output_dir) (enumerate (zip_longest images1 images2))
  ∧ (∀ i img1 img2,
       images1 !! i = Some img1 → images2 !! i = Some img2 →
       ∃ n c1 overlay,
         pixel_diff img1 img2 = Ok (n, c1, overlay)
         ∧ if (0 <? n)%Z
           then ∃ h, Image_alpha_composite c1 overlay = Ok h
                     ∧ artifact_of output_dir (i, (Some img1, Some img2))
                       = Some (joinpath (Path output_dir)
                                 ("diff_page_" +:+ pretty (i + 1)%nat
                                    +:+ ".png"), h)
           else artifact_of output_dir (i, (Some img1, Some img2)) = None)
  ∧ (∀ i img,
       (images1 !! i = Some img ∧ images2 !! i = None)
       ∨ (images1 !! i = None ∧ images2 !! i = Some img) →
       artifact_of output_dir (i, (images1 !! i, images2 !! i))
       = Some (joinpath (Path output_dir)
                 ("diff_page_" +:+ pretty (i + 1)%nat +:+ ".png"), img))
  ∧ List.filter touches_fs (trace w')
    = Returned (Call_mkdir (Path output_dir))
      :: ((λ s : path * Image, Returned (Call_save s.2 s.1))
            <$> saves (trace w'))
  ∧ fs w' = replay (List.filter touches_fs (trace w')) fs0.
Proof.
  intros Hrun Hclean H1 H2.
  assert (fs w' = replay (List.filter touches_fs (trace w')) fs0) as Hfs.
  { destruct (traced_extend _ _ _ _
                (traced_compare_pdf_pages file1 file2 output_dir) Hrun)
      as (evs0 & -> & _).
    by rewrite replay_filter_touches_fs. }
  destruct (traced_clean_Ok _ _ _ _
              (traced_compare_pdf_pages file1 file2 output_dir)
              Hrun eq_refl Hclean) as [b ->].
  pose proof Hrun as (im1 & im2 & fs1 & H1' & H2' & Hmk & Hfs1 & Hloop)
    %compare_pdf_pages_Ok_inv.
  rewrite H1 in H1'. rewrite H2 in H2'.
  injection H1' as <-. injection H2' as <-. simpl in Hmk.
  assert (∀ i, joinpath (Path output_dir)
                 ("diff_page_" +:+ pretty (i + 1)%nat +:+ ".png")
               = diff_path output_dir i) as Hname.
  { intros i. apply joinpath_diff_page_name. }
  split_and!.
  - apply for_each_saves in Hloop as ->.
    unfold prologue_events. simpl. by destruct (negb _).
  - intros i img1 img2 Hl1 Hl2. rewrite Hname.
    destruct (for_each_pixel_diff _ _ _ _ _ _ _ _ _ _ Hloop Hl1 Hl2)
      as (n & c1 & overlay & Hpd).
    exists n, c1, overlay. split; [done|].
    unfold artifact_of. simpl fst. simpl snd.
    rewrite (page_artifact_paired _ _ _ _ _ Hpd).
    destruct (0 <? n)%Z eqn:Hn; [|done].
    assert ((i, (Some img1, Some img2))
            ∈ enumerate (zip_longest images1 images2)) as Hin.
    { apply list_elem_of_lookup. exists i.
      rewrite pages_lookup, Hl1, Hl2; [done|].
      apply lookup_lt_Some in Hl1. lia. }
    apply list_elem_of_lookup in Hin as (k & Hk).
    destruct (for_each_Ok_split _ _ _ _ _ _ _ _ Hloop Hk)
      as (d1 & w1 & d2 & w2 & _ & Hbody & _).
    apply loop_body_Ok_artifact in Hbody as (a & evs & Ha & _ & _).
    rewrite (page_artifact_paired _ _ _ _ _ Hpd), Hn in Ha.
    destruct (Image_alpha_composite c1 overlay) as [h|]; [|done].
    by exists h.
  - intros i img Hpair. rewrite Hname.
    by destruct Hpair as [[-> ->]|[-> ->]].
  - apply (emits_pages (λ c, is_prologue_call c = false)
             _ _ _ (page_call_not_prologue output_dir)) in Hloop
      as (evs & -> & Hevs).
    simpl in Hclean. rewrite clean_app in Hclean.
    apply andb_prop in Hclean as [_ Hclean].
    simpl. rewrite List.filter_app, saves_app, fmap_app.
    rewrite (filter_touches_fs_saves _ Hclean Hevs).
    unfold prologue_events. by destruct (negb _).
  - exact Hfs.
Qed.

(** ** The calls of a run *)

Lemma emits_compare_pdf_pages file1 file2 output_dir :
  emits (run_call file1 file2 output_dir)
        (compare_pdf_pages file1 file2 output_dir).
Proof.
  unfold compare_pdf_pages.
  apply emits_bind; [apply emits_libcall; [done|simpl; auto]|intros images1].
  apply emits_bind; [apply emits_libcall; [done|simpl; auto]|intros images2].
  apply emits_bind; [by apply emits_py_mkdir|intros _].
  apply emits_bind.
  - destruct (negb _); [|apply emits_ret].
    apply emits_bind; [|intros; apply emits_ret].
    apply emits_print. simpl. left. eauto.
  - intros d. apply emits_pages. intros i c. apply page_call_run_call.
Qed.

(** X1. Every external call of every run, returning or raising, has one
    of the forms the script writes: the two inputs are rasterized at 100
    dpi with pdftocairo, [mkdir] is called on the output directory only,
    [save] is called only with the path [diff_page_{i+1}.png] joined to
    the output directory, conversions are to "RGBA" only, resizing uses
    LANCZOS only, new images are "RGBA", [pixelmatch] is called with
    threshold 0.1 only, and every line given to [print] is the page count
    warning or one of the three messages of a page, as lines 37, 46, 55
    and 65 spell them. *)
Theorem calls_within_vocabulary file1 file2 output_dir fs0 r w' :
  compare_pdf_pages file1 file2 output_dir (boot fs0) = (r, w') →
  Forall (λ ev, run_call file1 file2 output_dir (call_of ev)) (trace w').
Proof.
  intros (evs & -> & Hevs)%emits_compare_pdf_pages. exact Hevs.
Qed.

(** X2. In every run each input is rasterized at most once, the first
    before the second, and the output directory is created at most once,
    after both rasterizations returned: a run either ends in the exception
    of one of these three calls, having made no other call, or it starts
    with the three calls returning and makes none of them again. *)
Theorem prologue_runs_once file1 file2 output_dir fs0 r w' :
  compare_pdf_pages file1 file2 output_dir (boot fs0) = (r, w') →
  (∃ e,
     r = Raise e
     ∧ (trace w' = [Raised (Call_convert_from_path file1 100 true) e]
        ∨ trace w' = [Returned (Call_convert_from_path file1 100 true);
                      Raised (Call_convert_from_path file2 100 true) e]
        ∨ trace w' = [Returned (Call_convert_from_path file1 100 true);
                      Returned (Call_convert_from_path file2 100 true);
                      Raised (Call_mkdir (Path output_dir)) e]))
  ∨ (∃ evs,
       trace w' = [Returned (Call_convert_from_path file1 100 true);
                   Returned (Call_convert_from_path file2 100 true);
                   Returned (Call_mkdir (Path output_dir))] ++ evs
       ∧ Forall (λ ev, is_prologue_call (call_of ev) = false) evs).
Proof.
  rewrite compare_pdf_pages_unfold. simpl fs.
  destruct (convert_from_path file1 100 true) as [images1|e].
  2:{ intros [= <- <-]. left. exists e. auto. }
  destruct (convert_from_path file2 100 true) as [images2|e].
  2:{ intros [= <- <-]. left. exists e. auto. }
  destruct (Path_mkdir fs0 (Path output_dir)) as [fs1|e].
  2:{ intros [= <- <-]. left. exists e. auto. }
  destruct (warning_write images1 images2) as [u|e].
  2:{ intros [= <- <-]. right. eexists. split; [reflexivity|].
      by constructor. }
  intros (evs & -> & Hevs)%(emits_pages (λ c, is_prologue_call c = false)
                             _ _ _ (page_call_not_prologue output_dir)).
  right. unfold prologue_events. simpl.
  destruct (negb _); eexists; (split; [reflexivity|]); [|done].
  by constructor.
Qed.

(** ** What a run leaves in the file system *)

Lemma saves_no_write evs : no_write evs = true → saves evs = [].
Proof.
  induction evs as [|ev evs IH]; simpl; [done|].
  intros [Hev Hevs]%andb_prop. unfold saves in *. simpl.
  rewrite IH by done. by destruct ev as [[]|].
Qed.

Lemma for_each_saved_persist output_dir
    (l : list (option Image * option Image)) k d w r w' :
  for_each (enumerate_from k l) (loop_body output_dir) d w = (r, w') →
  ∃ evs, w' = extend w evs
         ∧ (∀ p img, (p, img) ∈ saves evs → fs w' !! p = Some (File img))
         ∧ (∀ p img, (p, img) ∈ saves evs →
                     ∃ j, k ≤ j ∧ p = diff_path output_dir j)
         ∧ NoDup (saves evs).*1.
Proof.
  revert k d w. induction l as [|pair l IH]; intros k d w; simpl.
  - intros [= <- <-]. exists []. rewrite extend_nil.
    split_and!; [done| | |constructor];
      intros p img Hin; by apply elem_of_nil in Hin.
  - destruct (loop_body_has_plan output_dir k pair d) as (pl & Hpl & Hrun).
    unfold bind. rewrite Hrun.
    destruct pl as [r1 evs1|evs1 img1 line d1]; cbn [run_plan plan_events] in *.
    + destruct r1 as [d1|e].
      * intros (evs2 & -> & Hsaved & Hpaths & Hnodup)%IH. exists (evs1 ++ evs2).
        rewrite saves_app, saves_no_write by done.
        split_and!; [by rewrite extend_app|done| |done].
        intros p img (j & ? & ->)%Hpaths. exists j. split; [lia|done].
      * intros [= <- <-]. exists evs1. rewrite saves_no_write by done.
        split_and!; [done| | |constructor];
          intros p img Hin; by apply elem_of_nil in Hin.
    + destruct (write_file (fs w) (diff_path output_dir k) img1)
        as [fs1|e] eqn:Hw.
      * assert (∀ ev, is_write ev = false →
                  fs (extend w (evs1 ++
                    [Returned (Call_save img1 (diff_path output_dir k)); ev]))
                  !! diff_path output_dir k = Some (File img1)) as Hnow.
        { intros ev Hev.
          rewrite fs_extend, replay_app, (replay_no_write evs1) by done.
          assert (replay [Returned (Call_save img1 (diff_path output_dir k));
                          ev] (fs w) = fs1) as ->.
          { unfold replay. simpl. rewrite Hw. destruct ev as [[]|]; done. }
          apply write_file_Ok in Hw as (-> & _).
          by rewrite lookup_insert_eq. }
        destruct (stdout_write line) as [u|e].
        -- intros Hrest. pose proof Hrest as [_ Hframe]%for_each_frame.
           apply IH in Hrest as (evs2 & -> & Hsaved & Hpaths & Hnodup).
           eexists. split; [by rewrite extend_app|].
           rewrite !saves_app, saves_no_write by done. simpl. split_and!.
           ++ intros p img [[= -> ->]|Hin]%elem_of_cons; [|by apply Hsaved].
              rewrite Hframe; [by apply Hnow|].
              intros j pr Hj%enumerate_from_elem_of Heq%diff_path_inj. lia.
           ++ intros p img [[= -> ->]|Hin]%elem_of_cons; [by exists k|].
              apply Hpaths in Hin as (j & ? & ->). exists j.
              split; [lia|done].
           ++ apply NoDup_cons. split; [|done].
              intros ([p img] & Hp & Hin)%list_elem_of_fmap. simpl in Hp.
              apply Hpaths in Hin as (j & Hj & ->).
              apply diff_path_inj in Hp. lia.
        -- intros [= <- <-]. eexists. split; [done|].
           rewrite !saves_app, saves_no_write by done. simpl. split_and!.
           ++ intros p img [[= -> ->]|Hin]%elem_of_cons;
                [by apply Hnow|by apply elem_of_nil in Hin].
           ++ intros p img [[= -> ->]|Hin]%elem_of_cons;
                [by exists k|by apply elem_of_nil in Hin].
           ++ apply NoDup_singleton.
      * intros [= <- <-]. eexists. split; [done|].
        rewrite saves_app, saves_no_write by done.
        split_and!; [| |constructor];
          intros p img Hin; by apply elem_of_nil in Hin.
Qed.

(** X3. The [save] calls of a run that returned name pairwise different
    paths: page [i] is saved, if at all, under [diff_page_{i+1}.png] of
    the output directory and by iteration [i] only.  So in a file system
    in which different paths are different files (no hard or symbolic
    link among these paths), every image whose [save] returned is under
    its path, with that content, when the run ends, whatever the outcome
    of the run: no later iteration writes there and nothing is cleaned up
    on failure. *)
Theorem saved_images_persist file1 file2 output_dir fs0 r w' :
  compare_pdf_pages file1 file2 output_dir (boot fs0) = (r, w') →
  NoDup (saves (trace w')).*1
  ∧ (∀ p img, (p, img) ∈ saves (trace w') →
       ∃ i, p = joinpath (Path output_dir)
                         ("diff_page_" +:+ pretty (i + 1)%nat +:+ ".png"))
  ∧ (∀ p img, (p, img) ∈ saves (trace w') → fs w' !! p = Some (File img)).
Proof.
  rewrite compare_pdf_pages_unfold. simpl fs.
  assert (∀ w : World, saves (trace w) = [] →
            NoDup (saves (trace w)).*1
            ∧ (∀ p img, (p, img) ∈ saves (trace w) →
                 ∃ i, p = joinpath (Path output_dir)
                            ("diff_page_" +:+ pretty (i + 1)%nat +:+ ".png"))
            ∧ (∀ p img, (p, img) ∈ saves (trace w) →
                 fs w !! p = Some (File img))) as Hnone.
  { intros w ->. split_and!; [constructor|..];
      intros p img Hin; by apply elem_of_nil in Hin. }
  destruct (convert_from_path file1 100 true) as [images1|e].
  2:{ intros [= <- <-]. by apply Hnone. }
  destruct (convert_from_path file2 100 true) as [images2|e].
  2:{ intros [= <- <-]. by apply Hnone. }
  destruct (Path_mkdir fs0 (Path output_dir)) as [fs1|e].
  2:{ intros [= <- <-]. by apply Hnone. }
  destruct (warning_write images1 images2) as [u|e].
  2:{ intros [= <- <-]. by apply Hnone. }
  intros (evs & -> & Hsaved & Hpaths & Hnodup)%for_each_saved_persist.
  assert (saves (trace (extend (extend (boot fs0)
            (prologue_events file1 file2 output_dir images1 images2)) evs))
          = saves evs) as ->.
  { simpl. rewrite saves_app. unfold prologue_events.
    by destruct (negb _). }
  split_and!; [done| |done].
  intros p img (j & _ & ->)%Hpaths. exists j.
  symmetry. apply joinpath_diff_page_name.
Qed.




(** X6. A diff image lies directly in the output directory, whatever the
    string given for it, and the images of two pages have the same path
    only if they are the same page. *)
Theorem diff_image_paths output_dir i j :
  tail (joinpath (Path output_dir) (diff_page_name i)) = Path output_dir
  ∧ (joinpath (Path output_dir) (diff_page_name i)
     = joinpath (Path output_dir) (diff_page_name j) ↔ i = j).
Proof.
  rewrite !joinpath_diff_page_name. split; [done|]. split.
  - apply diff_path_inj.
  - by intros ->.
Qed.

(** ** The result and the images saved *)

Lemma loop_body_saves_iff output_dir i pair d w d' w' :
  loop_body output_dir (i, pair) d w = (Ok d', w') →
  is_Some (artifact_of output_dir (i, pair))
  ↔ page_differs pair || lacks_counterpart pair = true.
Proof.
  unfold artifact_of. cbn [fst snd]. destruct pair as [[img1|] [img2|]].
  - intros Hbody.
    pose proof Hbody as (n & c1 & overlay & Hpd & _)%loop_body_pixel_diff.
    apply loop_body_Ok_artifact in Hbody as (a & _ & Ha & _).
    cbn [lacks_counterpart page_differs]. rewrite Hpd, orb_false_r, Ha.
    rewrite (page_artifact_paired _ _ _ _ _ Hpd) in Ha.
    destruct (0 <? n)%Z.
    + destruct (Image_alpha_composite c1 overlay); [|done].
      injection Ha as <-. split; [done|eauto].
    + injection Ha as <-. split; [by intros [? ?]|done].
  - intros _. simpl. split; [done|eauto].
  - intros _. simpl. split; [done|eauto].
  - done.
Qed.

Lemma for_each_saves_nil output_dir
    (xs : list (nat * (option Image * option Image))) d w b w' :
  for_each xs (loop_body output_dir) d w = (Ok b, w') →
  omap (artifact_of output_dir) xs = []
  ↔ existsb (λ x, page_differs x.2 || lacks_counterpart x.2) xs = false.
Proof.
  revert d w. induction xs as [|[i pair] xs IH]; intros d w; simpl.
  - done.
  - intros (d1 & w1 & Hbody & Hrest)%bind_Ok_inv.
    apply loop_body_saves_iff in Hbody. apply IH in Hrest.
    destruct (artifact_of output_dir (i, pair)) as [y|].
    + destruct Hbody as [Hb _]. rewrite Hb by eauto. simpl.
      split; intros [=].
    + destruct (page_differs pair || lacks_counterpart pair).
      * destruct Hbody as [_ Hb]. destruct Hb as [? [=]]. done.
      * exact Hrest.
Qed.

Lemma existsb_lacks_counterpart (l1 l2 : list Image) k :
  existsb (λ x, lacks_counterpart x.2) (enumerate_from k (zip_longest l1 l2))
  = negb (length l1 =? length l2)%nat.
Proof.
  revert l2 k. induction l1 as [|x l1 IH]; intros l2 k.
  - by destruct l2.
  - destruct l2 as [|y l2]; [done|]. simpl. apply IH.
Qed.

Lemma existsb_orb {X} (f g : X → bool) (xs : list X) :
  existsb (λ x, f x || g x) xs = existsb f xs || existsb g xs.
Proof.
  induction xs as [|x xs IH]; simpl; [done|]. rewrite IH.
  destruct (f x), (g x), (existsb f xs); done.
Qed.

(** A run that returns, returns true exactly when it saved an image. *)
Lemma result_true_iff_saves file1 file2 output_dir fs0 b w' :
  compare_pdf_pages file1 file2 output_dir (boot fs0) = (Ok b, w') →
  b = true ↔ saves (trace w') ≠ [].
Proof.
  intros (images1 & images2 & fs1 & _ & _ & _ & _ & Hloop)
    %compare_pdf_pages_Ok_inv.
  pose proof (for_each_flag _ _ _ _ _ _ Hloop) as ->.
  pose proof (for_each_saves_nil _ _ _ _ _ _ Hloop) as Hnil.
  apply for_each_saves in Hloop as ->.
  assert (saves (trace (extend (boot fs0)
            (prologue_events file1 file2 output_dir images1 images2))) = [])
    as ->.
  { unfold prologue_events. simpl. by destruct (negb _). }
  rewrite app_nil_l, Hnil, existsb_orb.
  unfold enumerate. rewrite existsb_lacks_counterpart.
  rewrite not_false_iff_true, orb_comm. done.
Qed.


(** X5. In a run in which no external call raises, the result is true
    exactly when at least one diff image was saved: a page count mismatch
    always comes with the image of an unmatched page, and a true result
    without page count mismatch with the overlay of a mismatched pair. *)
Theorem true_iff_image_saved file1 file2 output_dir fs0 r w' :
  compare_pdf_pages file1 file2 output_dir (boot fs0) = (r, w') →
  clean (trace w') = true →
  ∃ b, r = Ok b ∧ (b = true ↔ saves (trace w') ≠ []).
Proof.
  intros Hrun Hclean.
  destruct (traced_clean_Ok _ _ _ _
              (traced_compare_pdf_pages file1 file2 output_dir)
              Hrun eq_refl Hclean) as [b ->].
  exists b. split; [done|]. by eapply result_true_iff_saves.
Qed.

(** ** The exit status *)






(** ** The output directory cannot be created *)

Lemma fs_wf_above fs0 p q (n : node Image) :
  fs_wf fs0 → fs0 !! p = Some n → q `suffix_of` p → q ≠ p →
  is_dir fs0 q = true.
Proof.
  intros Hwf Hp Hq Hne. destruct p as [|x parent].
  - by apply suffix_nil_inv in Hq.
  - destruct q as [|y q']; [reflexivity|].
    apply suffix_cons_inv in Hq as [?|Hq]; [done|].
    apply Hwf in Hp. by apply fs_wf_ancestors with parent.
Qed.

Lemma Path_mkdir_blocked fs0 p :
  fs_wf fs0 → blocked fs0 p → ∃ e, Path_mkdir fs0 p = Raise e.
Proof.
  intros Hwf (q & img & Hq & Hf).
  assert (is_dir fs0 q = false) as Hnd by (unfold is_dir; by rewrite Hf).
  induction p as [|x parent IH]; cbn [Path_mkdir].
  - apply suffix_nil_inv in Hq as ->. done.
  - unfold os_mkdir.
    destruct (decide (q = x :: parent)) as [->|Hne].
    { rewrite Hf. unfold is_dir. rewrite Hf. eauto. }
    assert (q `suffix_of` parent) as Hq'.
    { destruct q as [|y q']; [apply suffix_nil|].
      by apply suffix_cons_inv in Hq as [?|?]. }
    destruct (node_at fs0 (x :: parent)) as [n|] eqn:Hp.
    + exfalso. unfold node_at in Hp.
      destruct (is_anchor (x :: parent)) eqn:Ha.
      * destruct parent; [|done].
        apply suffix_nil_inv in Hq' as ->. done.
      * pose proof (fs_wf_above _ _ _ _ Hwf Hp Hq Hne). congruence.
    + cbn [tail]. unfold is_dir. rewrite Hp.
      destruct (node_at fs0 parent) as [[|img']|] eqn:Hpar.
      * exfalso.
        assert (is_dir fs0 parent = true) as Hd
          by (unfold is_dir; by rewrite Hpar).
        pose proof (fs_wf_ancestors _ _ _ Hwf Hd Hq'). congruence.
      * eauto.
      * destruct (IH Hq') as [e ->]. eauto.
Qed.

(** X8. Let the output directory be written without [".."] component,
    on a file system in which every entry lies in a directory.  If a
    regular file sits at the output path or at one of its ancestors, then,
    once both inputs are rasterized, the creation of the output directory
    raises and its exception ends the run: no page is compared, nothing is
    printed and the file system is left as it was found. *)
Theorem output_dir_blocked file1 file2 output_dir fs0 images1 images2 r w' :
  fs_wf fs0 →
  convert_from_path file1 100 true = Ok images1 →
  convert_from_path file2 100 true = Ok images2 →
  no_dotdot output_dir = true →
  blocked fs0 (Path output_dir) →
  compare_pdf_pages file1 file2 output_dir (boot fs0) = (r, w') →
  ∃ e, r = Raise e
       ∧ trace w' = [Returned (Call_convert_from_path file1 100 true);
                     Returned (Call_convert_from_path file2 100 true);
                     Raised (Call_mkdir (Path output_dir)) e]
       ∧ fs w' = fs0
       ∧ stdout w' = [].
Proof.
  intros Hwf H1 H2 _ Hb. rewrite compare_pdf_pages_unfold, H1, H2. simpl fs.
  destruct (Path_mkdir_blocked _ _ Hwf Hb) as [e ->].
  intros [= <- <-]. by exists e.
Qed.

(** ** A run that finds no difference *)

Lemma count_calls_app f evs1 evs2 :
  count_calls f (evs1 ++ evs2) = count_calls f evs1 + count_calls f evs2.
Proof. unfold count_calls. by rewrite List.filter_app, length_app. Qed.

Lemma diff_events_quiet i img1 img2 c1 c2 c2' blank :
  no_write (diff_events i img1 img2 c1 c2 c2' blank) = true
  ∧ printed (diff_events i img1 img2 c1 c2 c2' blank)
    = (if size_eqb (Image_size c1) (Image_size c2) then []
       else [msg_size i (Image_size c1) (Image_size c2)])
  ∧ count_calls is_resize (diff_events i img1 img2 c1 c2 c2' blank)
    = length (printed (diff_events i img1 img2 c1 c2 c2' blank))
  ∧ count_calls is_pixelmatch (diff_events i img1 img2 c1 c2 c2' blank) = 1.
Proof.
  unfold diff_events, fit_events, count_calls.
  destruct (size_eqb _ _); cbn [app printed omap list_omap printed_line
    List.filter is_resize is_pixelmatch length no_write forallb is_write
    negb andb]; split_and!; done.
Qed.

Lemma for_each_no_difference output_dir
    (xs : list (nat * (option Image * option Image))) d w w' :
  for_each xs (loop_body output_dir) d w = (Ok false, w') →
  existsb (λ x, lacks_counterpart x.2) xs = false →
  ∃ evs, w' = extend w evs
         ∧ no_write evs = true
         ∧ printed evs = omap size_notice xs
         ∧ count_calls is_resize evs = length (printed evs).
Proof.
  revert d w. induction xs as [|[i pair] xs IH]; intros d w; cbn [for_each].
  - intros [= _ <-] _. exists []. by rewrite extend_nil.
  - intros (d1 & w1 & Hbody & Hrest)%bind_Ok_inv [Hl Hx]%orb_false_elim.
    pose proof (for_each_flag _ _ _ _ _ _ Hrest) as Hflag.
    destruct d1; [done|].
    destruct pair as [[img1|] [img2|]]; try done.
    apply loop_body_paired_Ok in Hbody
      as (c1 & c2 & c2' & blank & n & overlay & Hc1 & Hc2 & _ & _ & _ & Hn).
    destruct (0 <? n)%Z.
    + by destruct Hn as (h & _ & _ & [=] & _).
    + destruct Hn as [_ ->].
      destruct (IH _ _ Hrest Hx) as (evs & -> & Hnw & Hlines & Hcount).
      destruct (diff_events_quiet i img1 img2 c1 c2 c2' blank)
        as (Hnw0 & Hlines0 & Hcount0 & _).
      exists (diff_events i img1 img2 c1 c2 c2' blank ++ evs).
      rewrite extend_app, no_write_app, printed_app, count_calls_app,
        length_app, Hnw0, Hnw, Hcount0, Hcount.
      split_and!; try done.
      rewrite Hlines0, Hlines.
      change (omap size_notice ((i, (Some img1, Some img2)) :: xs))
        with (match size_notice (i, (Some img1, Some img2)) with
              | Some line => line :: omap size_notice xs
              | None => omap size_notice xs
              end).
      unfold size_notice. rewrite Hc1, Hc2.
      by destruct (size_eqb (Image_size c1) (Image_size c2)).
Qed.

(** X9. A size mismatch by itself does not set [diff_detected].  In a
    run in which no external call raises, on documents with the same
    number of pages whose pixel diffs all count no mismatched pixel, the
    result is false also when pages differ in size.  The lines printed
    are then exactly the size mismatch notices of line 55, in page order,
    one for each page whose two converted images differ in size and one
    for each resize made; nothing is saved, and the file system is changed
    by the creation of the output directory only. *)
Theorem no_difference_run file1 file2 output_dir fs0 r w' images1 images2 :
  compare_pdf_pages file1 file2 output_dir (boot fs0) = (r, w') →
  clean (trace w') = true →
  convert_from_path file1 100 true = Ok images1 →
  convert_from_path file2 100 true = Ok images2 →
  length images1 = length images2 →
  (∀ i img1 img2 n c1 overlay,
     images1 !! i = Some img1 → images2 !! i = Some img2 →
     pixel_diff img1 img2 = Ok (n, c1, overlay) → (n ≤ 0)%Z) →
  r = Ok false
  ∧ stdout w' = omap size_notice (enumerate (zip_longest images1 images2))
  ∧ count_calls is_resize (trace w') = length (stdout w')
  ∧ saves (trace w') = []
  ∧ Path_mkdir fs0 (Path output_dir) = Ok (fs w').
Proof.
  intros Hrun Hclean H1 H2 Hlen Hsame.
  destruct (traced_clean_Ok _ _ _ _
              (traced_compare_pdf_pages file1 file2 output_dir)
              Hrun eq_refl Hclean) as [b ->].
  apply compare_pdf_pages_Ok_inv in Hrun
    as (l1 & l2 & fs1 & H1' & H2' & Hmk & Hfs1 & Hloop).
  rewrite H1 in H1'. rewrite H2 in H2'.
  injection H1' as <-. injection H2' as <-.
  assert (negb (length images1 =? length images2)%nat = false) as Hd0.
  { by rewrite Hlen, Nat.eqb_refl. }
  assert (b = false) as ->.
  { apply for_each_flag in Hloop as ->. rewrite Hd0. simpl.
    destruct (existsb _ _) eqn:Hex; [|done].
    apply pages_differ_iff in Hex
      as (i & img1 & img2 & n & c1 & overlay & Hl1 & Hl2 & Hpd & Hn).
    pose proof (Hsame _ _ _ _ _ _ Hl1 Hl2 Hpd). lia. }
  apply for_each_no_difference in Hloop
    as (evs & -> & Hnw & Hlines & Hcount).
  2:{ unfold enumerate. by rewrite existsb_lacks_counterpart. }
  rewrite fs_extend_no_write, Hfs1 by done.
  unfold prologue_events. rewrite Hd0. simpl in Hmk.
  unfold extend, boot. cbn [stdout trace]. rewrite !app_nil_l, app_nil_r.
  rewrite count_calls_app, saves_app, (saves_no_write evs) by done.
  split_and!; [done|exact Hlines|exact Hcount|done|exact Hmk].
Qed.

(** ** Progress through the pages *)

(** X10. The run only ever moves forward: the world after more iterations
    is the world after fewer, extended by further calls (nothing printed
    or recorded is taken back), and once the flag is true it stays true
    through every later iteration. *)
Theorem flag_never_cleared file1 file2 output_dir fs0 images1 images2
    i j d_i w_i r_j w_j :
  i ≤ j →
  after_pages file1 file2 output_dir fs0 images1 images2 i = (Ok d_i, w_i) →
  after_pages file1 file2 output_dir fs0 images1 images2 j = (r_j, w_j) →
  (∃ evs, w_j = extend w_i evs)
  ∧ (d_i = true → ∀ d_j, r_j = Ok d_j → d_j = true).
Proof.
  intros Hij Hi. unfold after_pages in *.
  rewrite <-(take_drop i (take j _)), take_take, Nat.min_l by done.
  rewrite for_each_app. unfold bind at 1. rewrite Hi. intros Hj. split.
  - apply (emits_pages (λ _, True)) in Hj as (evs & -> & _); [|done].
    by exists evs.
  - intros -> d_j ->. by apply for_each_flag in Hj.
Qed.

(** ** How often pages are compared *)

Lemma for_each_pixelmatch_count output_dir
    (xs : list (nat * (option Image * option Image))) d w b w' :
  for_each xs (loop_body output_dir) d w = (Ok b, w') →
  ∃ evs, w' = extend w evs
         ∧ count_calls is_pixelmatch evs
           = length (List.filter (λ x, negb (lacks_counterpart x.2)) xs).
Proof.
  revert d w. induction xs as [|[i pair] xs IH]; intros d w; cbn [for_each].
  - intros [= _ <-]. exists []. by rewrite extend_nil.
  - intros (d1 & w1 & Hbody & Hrest)%bind_Ok_inv.
    destruct (IH _ _ Hrest) as (evs & -> & Hcount).
    destruct pair as [[img1|] [img2|]];
      cbn [List.filter lacks_counterpart negb snd length].
    + apply loop_body_paired_Ok in Hbody
        as (c1 & c2 & c2' & blank & n & overlay & _ & _ & _ & _ & _ & Hn).
      destruct (diff_events_quiet i img1 img2 c1 c2 c2' blank)
        as (_ & _ & _ & Hone).
      destruct (0 <? n)%Z.
      * destruct Hn as (h & _ & _ & _ & ->).
        eexists. rewrite !extend_app. split; [done|].
        rewrite !count_calls_app, Hone, Hcount. done.
      * destruct Hn as [_ ->].
        eexists. rewrite !extend_app. split; [done|].
        rewrite !count_calls_app, Hone, Hcount. done.
    + rewrite (loop_body_missing _ _ _ img1) in Hbody by auto.
      destruct (write_file _ _ _); [|done].
      destruct (stdout_write _); [|done]. injection Hbody as _ <-.
      eexists. rewrite !extend_app. split; [done|].
      rewrite !count_calls_app, Hcount. done.
    + rewrite (loop_body_missing _ _ _ img2) in Hbody by auto.
      destruct (write_file _ _ _); [|done].
      destruct (stdout_write _); [|done]. injection Hbody as _ <-.
      eexists. rewrite !extend_app. split; [done|].
      rewrite !count_calls_app, Hcount. done.
    + done.
Qed.

Lemma paired_pages_count (l1 l2 : list Image) k :
  length (List.filter (λ x : nat * (option Image * option Image),
                         negb (lacks_counterpart x.2))
                      (enumerate_from k (zip_longest l1 l2)))
  = min (length l1) (length l2).
Proof.
  revert l2 k. induction l1 as [|x l1 IH]; intros l2 k.
  - simpl. revert k. induction l2 as [|y l2 IH2]; intros k; [done|].
    simpl. apply IH2.
  - destruct l2 as [|y l2]; simpl.
    + rewrite IH. by destruct l1.
    + by rewrite IH.
Qed.

Lemma omap_length_le {X Y} (f : X → option Y) (xs : list X) :
  length (omap f xs) ≤ length xs.
Proof.
  induction xs as [|x xs IH]; csimpl; [done|]. destruct (f x); simpl; lia.
Qed.

(** X11. A run in which no external call raises calls [pixelmatch] exactly
    once for each page index at which both documents have a page, that is
    as many times as the shorter document has pages, and it saves at most
    one image for each page of the longer document. *)
Theorem pages_compared_once file1 file2 output_dir fs0 r w'
    images1 images2 :
  compare_pdf_pages file1 file2 output_dir (boot fs0) = (r, w') →
  clean (trace w') = true →
  convert_from_path file1 100 true = Ok images1 →
  convert_from_path file2 100 true = Ok images2 →
  count_calls is_pixelmatch (trace w')
  = min (length images1) (length images2)
  ∧ length (saves (trace w')) ≤ max (length images1) (length images2).
Proof.
  intros Hrun Hclean H1 H2.
  destruct (traced_clean_Ok _ _ _ _
              (traced_compare_pdf_pages file1 file2 output_dir)
              Hrun eq_refl Hclean) as [b ->].
  apply compare_pdf_pages_Ok_inv in Hrun
    as (l1 & l2 & fs1 & H1' & H2' & _ & _ & Hloop).
  rewrite H1 in H1'. rewrite H2 in H2'.
  injection H1' as <-. injection H2' as <-. split.
  - apply for_each_pixelmatch_count in Hloop as (evs & -> & Hcount).
    unfold enumerate in Hcount. rewrite paired_pages_count in Hcount.
    unfold extend, boot. cbn [trace]. rewrite app_nil_l, count_calls_app.
    rewrite Hcount. unfold prologue_events. by destruct (negb _).
  - apply for_each_saves in Hloop as ->.
    assert (saves (trace (extend (boot fs0)
              (prologue_events file1 file2 output_dir images1 images2))) = [])
      as ->.
    { unfold prologue_events. simpl. by destruct (negb _). }
    rewrite app_nil_l. etrans; [apply omap_length_le|].
    by rewrite enumerate_length, zip_longest_length.
Qed.

End Script.

(** ** The theorems at concrete documents

    Each theorem with hypotheses is applied to a run of the script over the
    executable backend: the hypotheses hold there by evaluation. *)

Lemma compare_result_witness :
  let run := compare_pdf_pages (Image:=Ref.Img) "a.pdf" "b.pdf" "out" (boot ∅) in
  clean (trace run.2) = true ∧ run.1 = Ok true.
Proof.
  intros run.
  assert (clean (trace run.2) = true) as Hclean by (vm_compute; reflexivity).
  split; [exact Hclean|].
  destruct (compare_result "a.pdf" "b.pdf" "out" ∅ run.1 run.2)
    as (images1 & images2 & b & H1 & H2 & Hr & Hiff & _).
  - vm_compute; reflexivity.
  - exact Hclean.
  - rewrite Hr. f_equal. apply Hiff. right; right.
    injection H1 as <-. injection H2 as <-.
    exists 1, Ref.pB, Ref.pB', 1%Z.
    eexists _, _. split_and!; [reflexivity|reflexivity|vm_compute; reflexivity|lia].
Defined.

Lemma page_count_mismatch_witness :
  let run := compare_pdf_pages (Image:=Ref.Img) "a.pdf" "c.pdf" "out" (boot ∅) in
  clean (trace run.2) = true
  ∧ convert_from_path "a.pdf" 100 true = Ok [Ref.pA; Ref.pB]
  ∧ convert_from_path "c.pdf" 100 true = Ok [Ref.pA; Ref.pB; Ref.pC]
  ∧ length [Ref.pA; Ref.pB] ≠ length [Ref.pA; Ref.pB; Ref.pC]
  ∧ run.1 = Ok true
  ∧ ∃ lines, stdout run.2 = "Warning: Page count mismatch! (2 vs 3)" :: lines.
Proof.
  intros run.
  assert (run = (run.1, run.2)) as Hrun by (vm_compute; reflexivity).
  assert (clean (trace run.2) = true) as Hclean by (vm_compute; reflexivity).
  assert (length [Ref.pA; Ref.pB] ≠ length [Ref.pA; Ref.pB; Ref.pC])
    as Hlen by (simpl; lia).
  split_and!; [exact Hclean|reflexivity|reflexivity|exact Hlen|..];
    destruct (page_count_mismatch "a.pdf" "c.pdf" "out" ∅ run.1 run.2
                [Ref.pA; Ref.pB] [Ref.pA; Ref.pB; Ref.pC]
                Hrun Hclean eq_refl eq_refl Hlen)
      as (Hr & _ & Hout & _); [exact Hr|exact Hout].
Defined.

Lemma directory_exists_before_saves_witness :
  let run := compare_pdf_pages (Image:=Ref.Img) "a.pdf" "c.pdf" "out/x" (boot ∅) in
  let ev := Returned (Call_save Ref.pC ["diff_page_3.png"; "x"; "out"]) in
  fs_wf (∅ : FS Ref.Img)
  ∧ trace run.2 = take 12 (trace run.2) ++ ev :: drop 13 (trace run.2)
  ∧ is_save ev = true
  ∧ Returned (Call_mkdir (Path "out/x")) ∈ take 12 (trace run.2)
  ∧ ∀ q, q `suffix_of` Path "out/x" →
         is_dir (replay (take 12 (trace run.2)) ∅) q = true.
Proof.
  intros run ev.
  assert (run = (run.1, run.2)) as Hrun by (vm_compute; reflexivity).
  assert (trace run.2 = take 12 (trace run.2) ++ ev :: drop 13 (trace run.2))
    as Htr by (vm_compute; reflexivity).
  split_and!; [exact fs_wf_empty|exact Htr|reflexivity|..];
    destruct (directory_exists_before_saves "a.pdf" "c.pdf" "out/x" ∅
                run.1 run.2 (take 12 (trace run.2)) ev
                (drop 13 (trace run.2)) fs_wf_empty
                Hrun Htr eq_refl)
      as [Hmk Hdirs]; [exact Hmk|exact Hdirs].
Defined.

Lemma missing_page_saved_witness :
  let run := compare_pdf_pages (Image:=Ref.Img) "a.pdf" "c.pdf" "out/x"
                               (boot ∅) in
  clean (trace run.2) = true
  ∧ convert_from_path "a.pdf" 100 true = Ok [Ref.pA; Ref.pB]
  ∧ convert_from_path "c.pdf" 100 true = Ok [Ref.pA; Ref.pB; Ref.pC]
  ∧ ([Ref.pA; Ref.pB] !! 2 = None ∧ [Ref.pA; Ref.pB; Ref.pC] !! 2 = Some Ref.pC)
  ∧ fs run.2 !! ["diff_page_3.png"; "x"; "out"] = Some (File Ref.pC)
  ∧ "Page 3: Missing in one of the PDFs." ∈ stdout run.2.
Proof.
  intros run.
  assert (run = (run.1, run.2)) as Hrun by (vm_compute; reflexivity).
  assert (clean (trace run.2) = true) as Hclean by (vm_compute; reflexivity).
  split_and!; [exact Hclean|reflexivity|reflexivity|reflexivity|reflexivity|..];
    destruct (missing_page_saved "a.pdf" "c.pdf" "out/x" ∅ run.1 run.2
                [Ref.pA; Ref.pB] [Ref.pA; Ref.pB; Ref.pC] 2 Ref.pC
                Hrun Hclean eq_refl eq_refl
                (or_intror (conj eq_refl eq_refl)))
      as (d & w_i & _ & _ & _ & _ & Hfile & Hline & _);
    [exact Hfile|exact Hline].
Defined.

Lemma paired_page_compared_witness :
  let run := compare_pdf_pages (Image:=Ref.Img) "a.pdf" "d.pdf" "out" (boot ∅) in
  clean (trace run.2) = true
  ∧ convert_from_path "a.pdf" 100 true = Ok [Ref.pA; Ref.pB]
  ∧ convert_from_path "d.pdf" 100 true = Ok [Ref.pA; Ref.pC]
  ∧ [Ref.pA; Ref.pB] !! 1 = Some Ref.pB
  ∧ [Ref.pA; Ref.pC] !! 1 = Some Ref.pC
  ∧ ∃ c1 c2 c2' blank n overlay,
      Image_convert Ref.pB "RGBA" = Ok c1
      ∧ Image_convert Ref.pC "RGBA" = Ok c2
      ∧ Image_resize c2 (Image_size c1) LANCZOS = Ok c2'
      ∧ pixelmatch c1 c2' blank (1 # 10) = Ok (n, overlay).
Proof.
  intros run.
  assert (run = (run.1, run.2)) as Hrun by (vm_compute; reflexivity).
  assert (clean (trace run.2) = true) as Hclean by (vm_compute; reflexivity).
  split_and!; [exact Hclean|reflexivity..|].
  destruct (paired_page_compared "a.pdf" "d.pdf" "out" ∅ run.1 run.2
              [Ref.pA; Ref.pB] [Ref.pA; Ref.pC] 1 Ref.pB Ref.pC
              Hrun Hclean eq_refl eq_refl
              eq_refl eq_refl)
    as (d & w_i & c1 & c2 & c2' & blank & n & overlay & evs & _ & Hc1 & Hc2
        & _ & Hresize & _ & Hpm & _).
  exists c1, c2, c2', blank, n, overlay. split_and!; [done|done| |done].
  apply Hresize. injection Hc1 as <-. injection Hc2 as <-. discriminate.
Defined.

Lemma files_written_witness :
  let run := compare_pdf_pages (Image:=Ref.Img) "a.pdf" "b.pdf" "out" (boot ∅) in
  let h := Ref.mkImg "RGBA" 2 2 [5; 6; 255; 8]%Z in
  clean (trace run.2) = true
  ∧ convert_from_path "a.pdf" 100 true = Ok [Ref.pA; Ref.pB]
  ∧ convert_from_path "b.pdf" 100 true = Ok [Ref.pA; Ref.pB']
  ∧ saves (trace run.2) = [(["diff_page_2.png"; "out"], h)]
  ∧ List.filter touches_fs (trace run.2)
    = [Returned (Call_mkdir ["out"]);
       Returned (Call_save h ["diff_page_2.png"; "out"])].
Proof.
  intros run h.
  assert (run = (run.1, run.2)) as Hrun by (vm_compute; reflexivity).
  assert (clean (trace run.2) = true) as Hclean by (vm_compute; reflexivity).
  split_and!; [exact Hclean|reflexivity|reflexivity|..];
    destruct (files_written "a.pdf" "b.pdf" "out" ∅ run.1 run.2
                [Ref.pA; Ref.pB] [Ref.pA; Ref.pB']
                Hrun Hclean eq_refl eq_refl)
      as (Hsaves & _ & _ & Hcalls & _).
  - etrans; [exact Hsaves|]. vm_compute. reflexivity.
  - etrans; [exact Hcalls|]. vm_compute. reflexivity.
Defined.

(** C6 as stated fails: on two identical documents no page is non-identical
    and nothing is saved, yet the run does touch the file system: it
    creates the output directory. *)
Lemma files_written_counterexample :
  let run := compare_pdf_pages (Image:=Ref.Img) "a.pdf" "a2.pdf"
                               "diff_results" (boot ∅) in
  run.1 = Ok false
  ∧ clean (trace run.2) = true
  ∧ saves (trace run.2) = []
  ∧ (∅ : FS Ref.Img) !! ["diff_results"] = None
  ∧ fs run.2 !! ["diff_results"] = Some Dir
  ∧ ¬ (∀ q : path, fs run.2 !! q = (∅ : FS Ref.Img) !! q).
Proof.
  intros run.
  assert (fs run.2 !! ["diff_results"] = Some Dir) as Hdir
    by (vm_compute; reflexivity).
  split_and!; [vm_compute; reflexivity..|exact Hdir|].
  intros Hframe. rewrite Hframe in Hdir. discriminate.
Qed.




Lemma failures_propagate_witness :
  let fs0 : FS Ref.Img :=
    {[ ["out"] := Dir; ["diff_page_2.png"; "out"] := Dir ]} in
  let run := compare_pdf_pages (Image:=Ref.Img) "a.pdf" "b.pdf" "out" (boot fs0) in
  run = (Raise IsADirectoryError, run.2)
  ∧ (∃ pre c, trace run.2 = pre ++ [Raised c IsADirectoryError]
              ∧ clean pre = true)
  ∧ fs run.2 = replay (trace run.2) fs0.
Proof.
  intros fs0 run.
  assert (run = (Raise IsADirectoryError, run.2)) as Hrun
    by (vm_compute; reflexivity).
  split; [exact Hrun|].
  destruct (failures_propagate "a.pdf" "b.pdf" "out" fs0 _ _ Hrun)
    as (_ & Hraise & Hfs & _).
  split; [|exact Hfs]. by apply Hraise.
Defined.

Lemma rasterization_failure_writes_nothing_witness :
  convert_from_path (Image:=Ref.Img) "missing.pdf" 100 true
  = Raise (LibraryError "PDFPageCountError")
  ∧ ∃ w', compare_pdf_pages (Image:=Ref.Img) "missing.pdf" "a.pdf" "out"
                            (boot ∅)
          = (Raise (LibraryError "PDFPageCountError"), w')
          ∧ fs w' = ∅
          ∧ stdout w' = [].
Proof.
  assert (convert_from_path (Image:=Ref.Img) "missing.pdf" 100 true
          = Raise (LibraryError "PDFPageCountError")) as Hfail
    by reflexivity.
  split; [exact Hfail|].
  destruct (rasterization_failure_writes_nothing (Image:=Ref.Img)
              "missing.pdf" "a.pdf" "out" ∅
              (LibraryError "PDFPageCountError") (or_introl Hfail))
    as (w' & Hrun & Hfs & Hout & _).
  by exists w'.
Defined.

(** *** The further properties at concrete documents *)

Lemma calls_within_vocabulary_witness :
  let run := compare_pdf_pages (Image:=Ref.Img) "a.pdf" "c.pdf" "out" (boot ∅) in
  stdout run.2 = ["Warning: Page count mismatch! (2 vs 3)";
                  "Page 3: Missing in one of the PDFs."]
  ∧ saves (trace run.2) = [(["diff_page_3.png"; "out"], Ref.pC)]
  ∧ Forall (λ ev, run_call "a.pdf" "c.pdf" "out" (call_of ev)) (trace run.2).
Proof.
  intros run.
  assert (run = (run.1, run.2)) as Hrun by (vm_compute; reflexivity).
  split_and!; [vm_compute; reflexivity..|].
  exact (calls_within_vocabulary "a.pdf" "c.pdf" "out" ∅ run.1 run.2 Hrun).
Defined.

Lemma prologue_runs_once_witness :
  let run := compare_pdf_pages (Image:=Ref.Img) "a.pdf" "d.pdf" "out" (boot ∅) in
  run.1 = Ok true
  ∧ ∃ evs,
      trace run.2 = [Returned (Call_convert_from_path "a.pdf" 100 true);
                     Returned (Call_convert_from_path "d.pdf" 100 true);
                     Returned (Call_mkdir (Path "out"))] ++ evs
      ∧ Forall (λ ev, is_prologue_call (call_of ev) = false) evs.
Proof.
  intros run.
  assert (run = (run.1, run.2)) as Hrun by (vm_compute; reflexivity).
  assert (run.1 = Ok true) as Hr by (vm_compute; reflexivity).
  split; [exact Hr|].
  destruct (prologue_runs_once "a.pdf" "d.pdf" "out" ∅ run.1 run.2 Hrun)
    as [(e & He & _)|Hevs]; [|exact Hevs].
  rewrite Hr in He. discriminate He.
Defined.

Lemma saved_images_persist_witness :
  let run := compare_pdf_pages (Image:=Ref.Img) "b.pdf" "c.pdf" "out" (boot ∅) in
  let h := Ref.mkImg "RGBA" 2 2 [5; 6; 255; 8]%Z in
  saves (trace run.2) = [(["diff_page_2.png"; "out"], h);
                         (["diff_page_3.png"; "out"], Ref.pC)]
  ∧ NoDup (saves (trace run.2)).*1
  ∧ fs run.2 !! ["diff_page_2.png"; "out"] = Some (File h)
  ∧ fs run.2 !! ["diff_page_3.png"; "out"] = Some (File Ref.pC).
Proof.
  intros run h.
  assert (run = (run.1, run.2)) as Hrun by (vm_compute; reflexivity).
  assert (saves (trace run.2) = [(["diff_page_2.png"; "out"], h);
                                 (["diff_page_3.png"; "out"], Ref.pC)])
    as Hsaves by (vm_compute; reflexivity).
  destruct (saved_images_persist "b.pdf" "c.pdf" "out" ∅ run.1 run.2 Hrun)
    as (Hnodup & _ & Hpersist).
  split_and!; [exact Hsaves|exact Hnodup|..]; apply Hpersist;
    rewrite Hsaves, !elem_of_cons; auto.
Defined.


Lemma true_iff_image_saved_witness :
  let run := compare_pdf_pages (Image:=Ref.Img) "a.pdf" "b.pdf" "out" (boot ∅) in
  clean (trace run.2) = true
  ∧ ∃ b, run.1 = Ok b ∧ (b = true ↔ saves (trace run.2) ≠ []).
Proof.
  intros run.
  assert (run = (run.1, run.2)) as Hrun by (vm_compute; reflexivity).
  assert (clean (trace run.2) = true) as Hclean by (vm_compute; reflexivity).
  split; [exact Hclean|].
  exact (true_iff_image_saved "a.pdf" "b.pdf" "out" ∅ run.1 run.2
           Hrun Hclean).
Defined.


Lemma output_dir_blocked_witness :
  let fs0 : FS Ref.Img := {[ ["out"] := File Ref.pA ]} in
  let run := compare_pdf_pages (Image:=Ref.Img) "a.pdf" "b.pdf" "out/x"
                               (boot fs0) in
  fs_wf fs0
  ∧ convert_from_path "a.pdf" 100 true = Ok [Ref.pA; Ref.pB]
  ∧ convert_from_path "b.pdf" 100 true = Ok [Ref.pA; Ref.pB']
  ∧ no_dotdot "out/x" = true
  ∧ blocked fs0 (Path "out/x")
  ∧ ∃ e, run.1 = Raise e
         ∧ trace run.2 = [Returned (Call_convert_from_path "a.pdf" 100 true);
                          Returned (Call_convert_from_path "b.pdf" 100 true);
                          Raised (Call_mkdir ["x"; "out"]) e]
         ∧ fs run.2 = fs0 ∧ stdout run.2 = [].
Proof.
  intros fs0 run.
  assert (run = (run.1, run.2)) as Hrun by (vm_compute; reflexivity).
  assert (fs_wf fs0) as Hwf.
  { intros p n [<- _]%lookup_singleton_Some. reflexivity. }
  assert (blocked fs0 (Path "out/x")) as Hb.
  { exists ["out"], Ref.pA. split; [by exists ["x"]|reflexivity]. }
  assert (convert_from_path "a.pdf" 100 true = Ok [Ref.pA; Ref.pB]) as H1
    by reflexivity.
  assert (convert_from_path "b.pdf" 100 true = Ok [Ref.pA; Ref.pB']) as H2
    by reflexivity.
  assert (no_dotdot "out/x" = true) as Hdd by reflexivity.
  split_and!; [exact Hwf|exact H1|exact H2|exact Hdd|exact Hb|].
  exact (output_dir_blocked "a.pdf" "b.pdf" "out/x" fs0
           [Ref.pA; Ref.pB] [Ref.pA; Ref.pB'] run.1 run.2
           Hwf H1 H2 Hdd Hb Hrun).
Defined.

Lemma no_difference_run_witness :
  let run := compare_pdf_pages (Image:=Ref.Img) "e.pdf" "f.pdf" "out"
                               (boot ∅) in
  clean (trace run.2) = true
  ∧ convert_from_path "e.pdf" 100 true = Ok [Ref.pA; Ref.pE]
  ∧ convert_from_path "f.pdf" 100 true = Ok [Ref.pA; Ref.pA]
  ∧ Image_size Ref.pE ≠ Image_size Ref.pA
  ∧ run.1 = Ok false
  ∧ stdout run.2 = ["Page 2: Size mismatch (2, 1) vs (2, 2). Resizing img2."]
  ∧ count_calls is_resize (trace run.2) = 1.
Proof.
  intros run.
  assert (run = (run.1, run.2)) as Hrun by (vm_compute; reflexivity).
  assert (clean (trace run.2) = true) as Hclean by (vm_compute; reflexivity).
  assert (convert_from_path "e.pdf" 100 true = Ok [Ref.pA; Ref.pE]) as H1
    by reflexivity.
  assert (convert_from_path "f.pdf" 100 true = Ok [Ref.pA; Ref.pA]) as H2
    by reflexivity.
  assert (length [Ref.pA; Ref.pE] = length [Ref.pA; Ref.pA]) as Hlen
    by reflexivity.
  assert (∀ i img1 img2 n c1 overlay,
            [Ref.pA; Ref.pE] !! i = Some img1 →
            [Ref.pA; Ref.pA] !! i = Some img2 →
            pixel_diff img1 img2 = Ok (n, c1, overlay) → (n ≤ 0)%Z) as Hsame.
  { intros [|[|i]] img1 img2 n c1 overlay Hl1 Hl2 Hpd;
      [| |discriminate Hl1]; injection Hl1 as <-; injection Hl2 as <-;
      vm_compute in Hpd; injection Hpd as <- _ _; lia. }
  split_and!; [exact Hclean|exact H1|exact H2|discriminate|..];
    destruct (no_difference_run "e.pdf" "f.pdf" "out" ∅ run.1 run.2
                [Ref.pA; Ref.pE] [Ref.pA; Ref.pA]
                Hrun Hclean H1 H2 Hlen Hsame)
      as (Hr & Hout & Hcount & _ & _).
  - exact Hr.
  - etrans; [exact Hout|]. vm_compute. reflexivity.
  - etrans; [exact Hcount|]. by rewrite Hout.
Defined.

Lemma flag_never_cleared_witness :
  let start := after_pages (Image:=Ref.Img) "a.pdf" "c.pdf" "out" ∅
                 [Ref.pA; Ref.pB] [Ref.pA; Ref.pB; Ref.pC] 0 in
  let stop := after_pages (Image:=Ref.Img) "a.pdf" "c.pdf" "out" ∅
                [Ref.pA; Ref.pB] [Ref.pA; Ref.pB; Ref.pC] 3 in
  0 ≤ 3
  ∧ start.1 = Ok true
  ∧ (∃ evs, stop.2 = extend start.2 evs)
  ∧ ∀ d, stop.1 = Ok d → d = true.
Proof.
  intros start stop.
  assert (start = (Ok true, start.2)) as Hi by (vm_compute; reflexivity).
  assert (stop = (stop.1, stop.2)) as Hj by (vm_compute; reflexivity).
  assert (0 ≤ 3) as Hle by lia.
  split_and!; [exact Hle|vm_compute; reflexivity|..];
    destruct (flag_never_cleared "a.pdf" "c.pdf" "out" ∅
                [Ref.pA; Ref.pB] [Ref.pA; Ref.pB; Ref.pC] 0 3
                true start.2 stop.1 stop.2 Hle Hi Hj) as [Hext Hflag];
    [exact Hext|exact (Hflag eq_refl)].
Defined.

Lemma pages_compared_once_witness :
  let run := compare_pdf_pages (Image:=Ref.Img) "a.pdf" "c.pdf" "out" (boot ∅) in
  clean (trace run.2) = true
  ∧ convert_from_path "a.pdf" 100 true = Ok [Ref.pA; Ref.pB]
  ∧ convert_from_path "c.pdf" 100 true = Ok [Ref.pA; Ref.pB; Ref.pC]
  ∧ count_calls is_pixelmatch (trace run.2) = 2
  ∧ length (saves (trace run.2)) ≤ 3.
Proof.
  intros run.
  assert (run = (run.1, run.2)) as Hrun by (vm_compute; reflexivity).
  assert (clean (trace run.2) = true) as Hclean by (vm_compute; reflexivity).
  split_and!; [exact Hclean|reflexivity|reflexivity|..];
    destruct (pages_compared_once "a.pdf" "c.pdf" "out" ∅ run.1 run.2
                [Ref.pA; Ref.pB] [Ref.pA; Ref.pB; Ref.pC]
                Hrun Hclean eq_refl eq_refl) as [Hcount Hsaves];
    [exact Hcount|exact Hsaves].
Defined.
